(** * Zoidberg: field-line maps, grid-file writer and VTK exporter

    A shallow embedding of [zoidberg/zoidberg.py]:
    - [make_maps]   (lines 26-78)  the forward/backward FCI map builder,
    - [write_maps]  (lines 80-141) the grid-file writer,
    - [fci_to_vtk]  (lines 144-171) the visualisation exporter.

    Numbers.  Python floats are modelled as exact rationals [Q]; the
    integrator's tolerance and rounding are out of the model.  Where numpy
    would produce [inf]/[nan] (an array divided by a zero step) the model
    has Rocq's [x / 0 == 0]; theorems about such values assume the steps
    are positive.  Python-level float divisions that raise
    [ZeroDivisionError] are modelled as raising.

    Sizes.  [nx], [ny], [nz] are natural numbers: [np.zeros] rejects a
    negative dimension, so no run gets past the first lines with one.
    Arrays are nested lists, [a[i][j][k]], with the shape the code gives
    them.

    Effects.  Python exceptions are the [Raise] branch of [result]; the
    progress bar, the files on disk and the order of I/O calls live in a
    [world] threaded through a state-and-exception monad. *)

From Stdlib Require Import QArith ZArith Lia Lqa Sorted.
From stdpp Require Import base option list gmap strings.

Local Open Scope string_scope.
Local Open Scope list_scope.
Local Open Scope Q_scope.

(** ** Exceptions and the state-and-exception monad *)

Inductive exn : Type :=
  | ZeroDivisionError
  | IndexError
  | ValueError
  | KeyError (key : string)
  | AttributeError
  | NameError (name : string)
  | TypeError
  | IOError (path : string)
  | TracingError (code : nat)
  | ProgressError (code : nat).

Inductive result (A : Type) : Type :=
  | Ok (a : A)
  | Raise (e : exn).
Arguments Ok {A} a.
Arguments Raise {A} e.

Definition is_Ok {A} (r : result A) : Prop :=
  match r with Ok _ => True | Raise _ => False end.

Definition is_Raise {A} (r : result A) : Prop :=
  match r with Ok _ => False | Raise _ => True end.

Definition M (W A : Type) : Type := W -> W * result A.

Definition ret {W A} (a : A) : M W A := fun w => (w, Ok a).

Definition raise {W A} (e : exn) : M W A := fun w => (w, Raise e).

Definition bind {W A B} (c : M W A) (k : A -> M W B) : M W B :=
  fun w =>
    match c w with
    | (w', Ok a) => k a w'
    | (w', Raise e) => (w', Raise e)
    end.

(** A pure computation that may raise, run inside the monad. *)
Definition lift {W A} (r : result A) : M W A := fun w => (w, r).

Global Instance M_ret {W} : MRet (M W) := fun A => @ret W A.
Global Instance M_bind {W} : MBind (M W) := fun A B k c => @bind W A B c k.

(** [for j in js: a = body(j, a)] with the loop-carried variables [a]. *)
Fixpoint for_loop {W A} (js : list nat) (body : nat -> A -> M W A) (a : A)
  : M W A :=
  match js with
  | [] => ret a
  | j :: js' => a' ← body j a; for_loop js' body a'
  end.

Global Instance result_ret : MRet result := fun A => @Ok A.
Global Instance result_bind : MBind result := fun A B k r =>
  match r with
  | Ok a => k a
  | Raise e => Raise e
  end.

(** The same loop for a body without effects on the world. *)
Fixpoint for_pure {A} (js : list nat) (body : nat -> A -> result A) (a : A)
  : result A :=
  match js with
  | [] => Ok a
  | j :: js' => a' ← body j a; for_pure js' body a'
  end.

(** Python's [range(n)]. *)
Definition range (n : nat) : list nat := seq 0 n.

(** ** numpy arrays as nested lists *)

Abbreviation arr1 := (list Q) (only parsing).
Abbreviation arr2 := (list (list Q)) (only parsing).
Abbreviation arr3 := (list (list (list Q))) (only parsing).

(** [np.zeros((n0, n1))] and [np.zeros((n0, n1, n2))]. *)
Definition np_zeros2 (n0 n1 : nat) : arr2 := replicate n0 (replicate n1 0).
Definition np_zeros3 (n0 n1 n2 : nat) : arr3 :=
  replicate n0 (replicate n1 (replicate n2 0)).

(** [a[i, j, k]] *)
Definition get3 (a : arr3) (i j k : nat) : option Q :=
  r ← a !! i; c ← r !! j; c !! k.

(** [a[i, j]] *)
Definition get2 (a : arr2) (i j : nat) : option Q :=
  r ← a !! i; r !! j.

(** [a[i, j, k] = v] for an index inside the array. *)
Definition set3 (i j k : nat) (v : Q) (a : arr3) : arr3 :=
  alter (alter (<[k := v]>) j) i a.

(** [a[:, j, :] = rows], both sides of shape (n0, n2). *)
Definition set_plane (j : nat) (rows : arr2) (a : arr3) : arr3 :=
  zip_with (fun plane row => <[j := row]> plane) a rows.

(** [np.meshgrid(xs, zs, indexing='ij')] *)
Definition meshgrid (xs zs : list Q) : arr2 * arr2 :=
  (map (fun x => map (fun _ => x) zs) xs, map (fun _ => zs) xs).

(** [a.flatten()] of a 2-D array (row-major). *)
Definition flatten (a : arr2) : list Q := concat a.

(** The rows of [l.reshape((n0, n1, ...))]. *)
Fixpoint chunks {A} (n0 n1 : nat) (l : list A) : list (list A) :=
  match n0 with
  | O => []
  | S n => take n1 l :: chunks n n1 (drop n1 l)
  end.

(** [coord.reshape((n0, n1, 2))] where [coord] holds [length l] pairs:
    numpy raises [ValueError] when the sizes differ. *)
Definition reshape {A} (n0 n1 : nat) (l : list A) : result (list (list A)) :=
  if (length l =? n0 * n1)%nat then Ok (chunks n0 n1 l) else Raise ValueError.

(** [seq[i]] for a non-negative index: [IndexError] out of range. *)
Definition index {A} (l : list A) (i : nat) : result A :=
  match l !! i with
  | Some x => Ok x
  | None => Raise IndexError
  end.

(** [float(a) / float(b)] on Python ints: raises when [b] is zero. *)
Definition float_div (a b : Z) : result Q :=
  if (b =? 0)%Z then Raise ZeroDivisionError
  else Ok (inject_Z a / inject_Z b).

(** [1. / q] on a Python float: raises when [q] is zero. *)
Definition float_recip (q : Q) : result Q :=
  if Qeq_bool q 0 then Raise ZeroDivisionError else Ok (1 / q).

(** [a + c] and [a * c] for an array and a scalar. *)
Definition add_scalar2 (a : arr2) (c : Q) : arr2 := map (map (fun v => v + c)) a.
Definition mul_scalar1 (a : arr1) (c : Q) : arr1 := map (fun v => v * c) a.
Definition mul_scalar3 (a : arr3) (c : Q) : arr3 :=
  map (map (map (fun v => v * c))) a.

(** [a[:, :, 0]] for [a] of shape (n0, n1, n2): [IndexError] when the last
    axis is empty. *)
Definition slice_k0 (n2 : nat) (a : arr3) : result arr2 :=
  if (n2 =? 0)%nat then Raise IndexError
  else Ok (map (map (fun r => nth 0 r 0)) a).

(** [np.ones(shape)] for a 3-D shape. *)
Definition np_ones3 (n0 n1 n2 : nat) : arr3 :=
  replicate n0 (replicate n1 (replicate n2 1)).

(** [np.linspace(0, stop, n)] *)
Definition np_linspace0 (stop : Q) (n : nat) : arr1 :=
  map (fun i => inject_Z (Z.of_nat i) * (stop / inject_Z (Z.of_nat n - 1)))
      (range n).

(** [d[key]] on a Python dict. *)
Definition dict_get {A} (d : gmap string A) (key : string) : result A :=
  match d !! key with
  | Some v => Ok v
  | None => Raise (KeyError key)
  end.

(** ** Grid and magnetic field (the attributes the module reads) *)

Record grid : Type := Grid {
  nx : nat; ny : nat; nz : nat;
  xarray : list Q; yarray : list Q; zarray : list Q;
  delta_x : Q; delta_y : Q; delta_z : Q;
  Rmaj : Q
}.

Record magnetic_field : Type := MagneticField {
  Bxfunc : Q -> Q -> Q -> Q;   (* Bxfunc(x, z, y) *)
  Bzfunc : Q -> Q -> Q -> Q    (* Bzfunc(x, z, y) *)
}.

(** The data-model invariant of a grid: the coordinate sequences have the
    declared lengths and the steps are strictly positive. *)
Record wf_grid (g : grid) : Prop := {
  wf_xarray : length (xarray g) = nx g;
  wf_yarray : length (yarray g) = ny g;
  wf_zarray : length (zarray g) = nz g;
  wf_delta_x : 0 < delta_x g;
  wf_delta_y : 0 < delta_y g;
  wf_delta_z : 0 < delta_z g
}.

(** ** Files *)

(** What a grid file holds under one key. *)
Inductive value : Type :=
  | VInt (n : Z)
  | VFloat (q : Q)
  | VArr2 (a : arr2)
  | VArr3 (a : arr3).

(** What [gridToVTK] is given. *)
Record vtk_file : Type := VtkFile {
  vtk_x : list Q; vtk_y : list Q; vtk_z : list Q;
  vtk_B : arr3 * arr3 * arr3
}.

Inductive io_event : Type :=
  | EvCreate (path : string)
  | EvOpen (path : string)
  | EvWrite (path key : string)
  | EvRead (path key : string)
  | EvVtk (path : string).

(** ** The world: progress bar, files and I/O history *)

Record world (PS : Type) : Type := World {
  w_progress : PS;                       (* state of the progress bar *)
  w_calls : list Q;                      (* arguments of its invocations *)
  w_files : gmap string (gmap string value);   (* grid files on disk *)
  w_vtk : gmap string vtk_file;          (* files written by gridToVTK *)
  w_io : list io_event                   (* I/O calls, oldest first *)
}.
Arguments World {PS} _ _ _ _ _.
Arguments w_progress {PS} _.
Arguments w_calls {PS} _.
Arguments w_files {PS} _.
Arguments w_vtk {PS} _.
Arguments w_io {PS} _.

(** The dictionary built at lines 71-76. *)
Definition pack_maps (st : arr3 * arr3 * arr3 * arr3) : gmap string arr3 :=
  let '(fx, fz, bx, bz) := st in
  <["forward_xt_prime" := fx]>
  (<["forward_zt_prime" := fz]>
  (<["backward_xt_prime" := bx]>
  (<["backward_zt_prime" := bz]> ∅))).

(** ** Example inputs *)

(** A tracer that leaves every point where it is: exact for a field that
    vanishes. *)
Definition rest_tracer (field : magnetic_field) (xs zs : list Q) (y : Q * Q)
  : result (list (Q * Q)) :=
  Ok (zip xs zs).

(** A tracer that cannot advance from the toroidal angle [y0]. *)
Definition stuck_tracer (y0 : Q) (field : magnetic_field) (xs zs : list Q)
    (y : Q * Q) : result (list (Q * Q)) :=
  if Qeq_bool (fst y) y0 then Raise (TracingError 0) else Ok (zip xs zs).

(** A progress bar that counts its invocations. *)
Definition counting_progress (fraction : Q) (kwargs : unit) (n : nat)
  : nat * result unit :=
  (S n, Ok tt).

(** A progress bar that raises on its second invocation. *)
Definition fragile_progress (fraction : Q) (kwargs : unit) (n : nat)
  : nat * result unit :=
  (S n, if (n =? 1)%nat then Raise (ProgressError 1) else Ok tt).

(** A rational stand-in for [numpy.sqrt], exact on squares of rationals. *)
Definition rational_sqrt (q : Q) : Q :=
  Z.sqrt (Qnum q * Zpos (Qden q)) # Qden q.

(** A stand-in for [transform3D]: it doubles every entry. *)
Definition doubling_transform (a : arr3) : arr3 := mul_scalar3 a 2.

Definition field_zero : magnetic_field :=
  MagneticField (fun _ _ _ => 0) (fun _ _ _ => 0).

Definition field_shear : magnetic_field :=
  MagneticField (fun x z y => 3 * x) (fun x z y => 4 * x + 0 * z).

(** nx = 4, ny = 3, nz = 4, delta_x = delta_z = 1, delta_y = 0.1, with the
    coordinates on the multiples of the steps. *)
Definition grid_4_3_4 : grid :=
  Grid 4 3 4 [0; 1; 2; 3] [0; 1 # 10; 2 # 10] [0; 1; 2; 3] 1 (1 # 10) 1 1.

(** The same grid with the x coordinates at the cell centres. *)
Definition grid_centred : grid :=
  Grid 4 3 4 [1 # 2; 3 # 2; 5 # 2; 7 # 2] [0; 1 # 10; 2 # 10] [0; 1; 2; 3]
       1 (1 # 10) 1 1.

(** A grid with a single toroidal plane. *)
Definition grid_one_plane : grid :=
  Grid 2 1 2 [0; 1] [0] [0; 1] 1 (1 # 10) 1 1.

Definition world0 : world nat := World 0%nat [] ∅ ∅ [].

(** The identity index maps of [grid_4_3_4]. *)
Definition x_index_4_3_4 : arr3 :=
  map (fun x => replicate 3 (replicate 4 x)) [0; 1; 2; 3].

Definition z_index_4_3_4 : arr3 := replicate 4 (replicate 3 [0; 1; 2; 3]).

Definition maps_4_3_4 : gmap string arr3 :=
  pack_maps (x_index_4_3_4, z_index_4_3_4, x_index_4_3_4, z_index_4_3_4).

(** The maps of [grid_centred] in a field at rest. *)
Definition x_centred_4_3_4 : arr3 :=
  map (fun x => replicate 3 (replicate 4 x)) [1 # 2; 3 # 2; 5 # 2; 7 # 2].

Definition maps_centred : gmap string arr3 :=
  pack_maps (x_centred_4_3_4, z_index_4_3_4, x_centred_4_3_4, z_index_4_3_4).

(** A grid file that has the steps and the forward maps but no field
    components, and a world that holds it. *)
Definition grid_file_no_bx : gmap string value :=
  <["dx" := VFloat 1]> (<["dy" := VFloat (1 # 10)]>
  (<["forward_xt_prime" := VArr3 [[[0]]]]>
  (<["forward_zt_prime" := VArr3 [[[0]]]]> ∅))).

Definition world_no_bx : world nat :=
  World 0%nat [] {[ "fci.grid.nc" := grid_file_no_bx ]} ∅ [].

(** A tracer that shifts every point in x by the toroidal step it is
    given. *)
Definition drift_tracer (field : magnetic_field) (xs zs : list Q) (y : Q * Q)
  : result (list (Q * Q)) :=
  Ok (map (fun p => (fst p + snd y, snd p)) (zip xs zs)).

(** A tracer that loses the first of its points. *)
Definition lossy_tracer (field : magnetic_field) (xs zs : list Q) (y : Q * Q)
  : result (list (Q * Q)) :=
  Ok (tail (zip xs zs)).

(** A progress bar that raises when it is told that half is done. *)
Definition halfway_progress (fraction : Q) (kwargs : unit) (n : nat)
  : nat * result unit :=
  (S n, if Qeq_bool fraction (1 # 2) then Raise (ProgressError 2) else Ok tt).

(** [grid_4_3_4] with one toroidal angle missing. *)
Definition grid_short_y : grid :=
  Grid 4 3 4 [0; 1; 2; 3] [0; 1 # 10] [0; 1; 2; 3] 1 (1 # 10) 1 1.

(** [grid_4_3_4] with one x coordinate missing. *)
Definition grid_short_x : grid :=
  Grid 4 3 4 [0; 1; 2] [0; 1 # 10; 2 # 10] [0; 1; 2; 3] 1 (1 # 10) 1 1.

(** [grid_4_3_4] with a vanishing major radius. *)
Definition grid_no_radius : grid :=
  Grid 4 3 4 [0; 1; 2; 3] [0; 1 # 10; 2 # 10] [0; 1; 2; 3] 1 (1 # 10) 1 0.

(** A well-formed grid without a single z point. *)
Definition grid_no_z : grid :=
  Grid 4 3 0 [0; 1; 2; 3] [0; 1 # 10; 2 # 10] [] 1 (1 # 10) 1 1.

(** The maps of [grid_4_3_4] without the backward map in x. *)
Definition maps_no_backward_x : gmap string arr3 :=
  delete "backward_xt_prime" maps_4_3_4.

(** The maps of [grid_4_3_4] as [drift_tracer] gives them. *)
Definition x_forward_drift : arr3 :=
  map (fun x => replicate 3 (replicate 4 x))
      [1 # 10; 11 # 10; 21 # 10; 31 # 10].

Definition x_backward_drift : arr3 :=
  map (fun x => replicate 3 (replicate 4 x))
      [-1 # 10; 9 # 10; 19 # 10; 29 # 10].

Definition maps_drift : gmap string arr3 :=
  pack_maps
    (x_forward_drift, z_index_4_3_4, x_backward_drift, z_index_4_3_4).

(** A complete grid file of shape (2, 2, 3), and worlds that hold it,
    hold it without [bz], and hold it with a 2-D [bx]. *)
Definition bx_2_2_3 : arr3 :=
  [[[1; 2; 3]; [4; 5; 6]]; [[7; 8; 9]; [10; 11; 12]]].

Definition bz_2_2_3 : arr3 :=
  [[[0; 1; 0]; [1; 0; 1]]; [[2; 0; 2]; [0; 2; 0]]].

Definition grid_file_no_bz : gmap string value :=
  <["dx" := VFloat (1 # 2)]> (<["dy" := VFloat (1 # 10)]>
  (<["bx" := VArr3 bx_2_2_3]> ∅)).

Definition grid_file_2_2_3 : gmap string value :=
  <["bz" := VArr3 bz_2_2_3]> grid_file_no_bz.

Definition world_2_2_3 : world nat :=
  World 0%nat [] {[ "fci.grid.nc" := grid_file_2_2_3 ]} ∅ [].

Definition world_no_bz : world nat :=
  World 0%nat [] {[ "fci.grid.nc" := grid_file_no_bz ]} ∅ [].

Definition world_flat_bx : world nat :=
  World 0%nat []
    {[ "fci.grid.nc" := <["bx" := VArr2 [[1; 2]; [3; 4]]]> grid_file_no_bz ]}
    ∅ [].

Section Zoidberg.

Set Default Proof Using "Type".

(** The collaborators that are imported by the module.

    [follow_field_lines field xs zs (y0, dy)] stands for
    [FieldTracer(field).follow_field_lines(xs, zs, [y0, dy])[1,...]]: the
    final (x, z) of every starting point, or the exception it raises.
    [update_progress] is the progress bar, with a state [PS] of its own.
    [np_sqrt] is [numpy.sqrt] and [transform3D] is
    [boutdata.input.transform3D]. *)
Variable follow_field_lines :
  magnetic_field -> list Q -> list Q -> Q * Q -> result (list (Q * Q)).
Variable PS : Type.
Variable KW : Type.
Variable update_progress : Q -> KW -> PS -> PS * result unit.
Variable np_sqrt : Q -> Q.
Variable transform3D : arr3 -> arr3.
Variable have_evtk : bool.


(** [update_progress(fraction, **kwargs)]: the invocation is recorded,
    then the callback runs on its own state and may raise. *)
Definition call_progress (fraction : Q) (kwargs : KW) : M (world PS) unit :=
  fun w =>
    let '(s, r) := update_progress fraction kwargs (w_progress w) in
    (World s (w_calls w ++ [fraction]) (w_files w) (w_vtk w) (w_io w), r).

(** ** make_maps *)

Abbreviation maps_state := (arr3 * arr3 * arr3 * arr3)%type (only parsing).

(** Lines 59-63 and 66-69: one trace from [yarray[j]] by [dy], reshaped
    and divided into the x-index and z-index planes. *)
Definition trace_plane (g : grid) (field : magnetic_field)
    (x_coords z_coords : list Q) (j : nat) (dy : Q) : result (arr2 * arr2) :=
  match index (yarray g) j with
  | Raise e => Raise e
  | Ok y =>
    match follow_field_lines field x_coords z_coords (y, dy) with
    | Raise e => Raise e
    | Ok coord =>
      match reshape (nx g) (nz g) coord with
      | Raise e => Raise e
      | Ok coord =>
        Ok (map (map (fun p => fst p / delta_x g)) coord,
            map (map (fun p => snd p / delta_z g)) coord)
      end
    end
  end.

(** The body of the loop at line 52. *)
Definition make_maps_body (g : grid) (field : magnetic_field)
    (quiet : bool) (kwargs : KW) (x2d z2d : arr2)
    (j : nat) (st : maps_state) : M (world PS) maps_state :=
  let '(forward_xt_prime, forward_zt_prime,
        backward_xt_prime, backward_zt_prime) := st in
  (if negb quiet then
     fraction ← lift (float_div (Z.of_nat j) (Z.of_nat (ny g) - 1));
     call_progress fraction kwargs
   else ret tt);;
  let x_coords := flatten x2d in
  let z_coords := flatten z2d in
  '(cx, cz) ← lift (trace_plane g field x_coords z_coords j (delta_y g));
  let forward_xt_prime := set_plane j cx forward_xt_prime in
  let forward_zt_prime := set_plane j cz forward_zt_prime in
  '(cx, cz) ← lift (trace_plane g field x_coords z_coords j (- delta_y g));
  let backward_xt_prime := set_plane j cx backward_xt_prime in
  let backward_zt_prime := set_plane j cz backward_zt_prime in
  ret (forward_xt_prime, forward_zt_prime,
       backward_xt_prime, backward_zt_prime).

Definition make_maps (g : grid) (field : magnetic_field)
    (quiet : bool) (kwargs : KW) : M (world PS) (gmap string arr3) :=
  let '(nx, ny, nz) := (nx g, ny g, nz g) in
  let forward_xt_prime := np_zeros3 nx ny nz in
  let forward_zt_prime := np_zeros3 nx ny nz in
  let backward_xt_prime := np_zeros3 nx ny nz in
  let backward_zt_prime := np_zeros3 nx ny nz in
  let '(x2d, z2d) := meshgrid (xarray g) (zarray g) in
  '(forward_xt_prime, forward_zt_prime,
    backward_xt_prime, backward_zt_prime) ←
    for_loop (range ny)
      (make_maps_body g field quiet kwargs x2d z2d)
      (forward_xt_prime, forward_zt_prime,
       backward_xt_prime, backward_zt_prime);
  let maps : gmap string arr3 :=
    <["forward_xt_prime" := forward_xt_prime]>
    (<["forward_zt_prime" := forward_zt_prime]>
    (<["backward_xt_prime" := backward_xt_prime]>
    (<["backward_zt_prime" := backward_zt_prime]> ∅))) in
  ret maps.

(** ** Grid files: [boututils.datafile.DataFile] *)

Definition log_io (ev : io_event) (w : world PS) : world PS :=
  World (w_progress w) (w_calls w) (w_files w) (w_vtk w) (w_io w ++ [ev]).

Definition set_files (fs : gmap string (gmap string value)) (w : world PS)
  : world PS :=
  World (w_progress w) (w_calls w) fs (w_vtk w) (w_io w).

(** [DataFile(path, write=True, create=True)]: a new, empty file. *)
Definition file_create (path : string) : M (world PS) unit :=
  fun w => (log_io (EvCreate path) (set_files (<[path := ∅]> (w_files w)) w),
            Ok tt).

(** [f.write(key, v)] *)
Definition file_write (path key : string) (v : value) : M (world PS) unit :=
  fun w =>
    (log_io (EvWrite path key)
       (set_files (alter (<[key := v]>) path (w_files w)) w), Ok tt).

(** [DataFile(path, write=False, create=False)]: the file must exist. *)
Definition file_open (path : string) : M (world PS) unit :=
  fun w =>
    match w_files w !! path with
    | Some _ => (log_io (EvOpen path) w, Ok tt)
    | None => (log_io (EvOpen path) w, Raise (IOError path))
    end.

(** [f.read(key)]: [None] when the file has no such variable. *)
Definition file_read (path key : string) : M (world PS) (option value) :=
  fun w => (log_io (EvRead path key) w, Ok (w_files w !! path ≫= (.!! key))).

(** ** write_maps *)

Abbreviation field_state := (arr3 * arr3 * arr3)%type (only parsing).

(** The body of the innermost loop, lines 103-106. *)
Definition sample_point (g : grid) (field : magnetic_field)
    (i j k : nat) (st : field_state) : result field_state :=
  let '(Bxy, totalbx, totalbz) := st in
  xi ← index (xarray g) i;
  zk ← index (zarray g) k;
  yj ← index (yarray g) j;
  let Bxy :=
    set3 i j k (np_sqrt (Bxfunc field xi zk yj ^ 2 + Bzfunc field xi zk yj ^ 2))
         Bxy in
  let totalbx := set3 i j k (Bxfunc field xi zk yj) totalbx in
  let totalbz := set3 i j k (Bzfunc field xi zk yj) totalbz in
  Ok (Bxy, totalbx, totalbz).

(** Lines 97-106. *)
Definition sample_field (g : grid) (field : magnetic_field)
  : result field_state :=
  let '(nx, ny, nz) := (nx g, ny g, nz g) in
  let totalbx := np_zeros3 nx ny nz in
  let totalbz := np_zeros3 nx ny nz in
  let Bxy := np_zeros3 nx ny nz in
  for_pure (range nx) (fun i =>
    for_pure (range ny) (fun j =>
      for_pure (range nz) (fun k => sample_point g field i j k)))
    (Bxy, totalbx, totalbz).

(** Lines 129-141: the four maps, transformed for a legacy file. *)
Definition write_map (maps : gmap string arr3) (gridfile : string)
    (legacy : bool) (key : string) : M (world PS) unit :=
  m ← lift (dict_get maps key);
  file_write gridfile key (VArr3 (if legacy then transform3D m else m)).

Definition write_maps (g : grid) (field : magnetic_field)
    (maps : gmap string arr3) (gridfile : string) (legacy : bool)
  : M (world PS) unit :=
  let '(nx, ny, nz) := (nx g, ny g, nz g) in
  inv ← lift (float_recip (Rmaj g ^ 2));
  let g_22 := add_scalar2 (np_zeros2 nx ny) inv in
  '(Bxy, totalbx, totalbz) ← lift (sample_field g field);
  file_create gridfile;;
  let ixseps := (Z.of_nat nx + 1)%Z in
  file_write gridfile "nx" (VInt (Z.of_nat nx));;
  file_write gridfile "ny" (VInt (Z.of_nat ny));;
  (if negb legacy then file_write gridfile "nz" (VInt (Z.of_nat nz))
   else ret tt);;
  file_write gridfile "dx" (VFloat (delta_x g));;
  file_write gridfile "dy" (VFloat (delta_y g));;
  file_write gridfile "ixseps1" (VInt ixseps);;
  file_write gridfile "ixseps2" (VInt ixseps);;
  file_write gridfile "g_22" (VArr2 g_22);;
  Bxy0 ← lift (slice_k0 nz Bxy);
  file_write gridfile "Bxy" (VArr2 Bxy0);;
  file_write gridfile "bx" (VArr3 totalbx);;
  file_write gridfile "bz" (VArr3 totalbz);;
  write_map maps gridfile legacy "forward_xt_prime";;
  write_map maps gridfile legacy "forward_zt_prime";;
  write_map maps gridfile legacy "backward_xt_prime";;
  write_map maps gridfile legacy "backward_zt_prime".

(** ** fci_to_vtk *)

(** [v.shape] of what [f.read] returned: [None] has no such attribute.
    The shape of a nested list is read off its first rows. *)
Definition shape_of (v : option value) : result (list nat) :=
  match v with
  | None => Raise AttributeError
  | Some (VInt _) | Some (VFloat _) => Ok []
  | Some (VArr2 a) => Ok [length a; length (nth 0 a [])]
  | Some (VArr3 a) =>
      Ok [length a; length (nth 0 a []); length (nth 0 (nth 0 a []) [])]
  end.

(** [n0, n1, n2 = shape] *)
Definition unpack3 (shape : list nat) : result (nat * nat * nat) :=
  match shape with
  | [n0; n1; n2] => Ok (n0, n1, n2)
  | _ => Raise ValueError
  end.

(** A scalar read from the file, used in arithmetic. *)
Definition as_scalar (v : option value) : result Q :=
  match v with
  | Some (VFloat q) => Ok q
  | Some (VInt n) => Ok (inject_Z n)
  | _ => Raise TypeError
  end.

(** A 3-D component handed to [gridToVTK]. *)
Definition as_arr3 (v : option value) : result arr3 :=
  match v with
  | Some (VArr3 a) => Ok a
  | _ => Raise TypeError
  end.

(** [gridToVTK(path, x, y, z, pointData={'B': B})] *)
Definition gridToVTK (path : string) (x y z : arr1) (B : arr3 * arr3 * arr3)
  : M (world PS) unit :=
  fun w =>
    (World (w_progress w) (w_calls w) (w_files w)
       (<[path := VtkFile x y z B]> (w_vtk w)) (w_io w ++ [EvVtk path]),
     Ok tt).

(** Lines 144-171.  [by = np.ones(bx.shape)] at line 154 is where a
    missing [bx] raises; [by] itself is built once line 164 has unpacked
    the same shape.  In the branch for a missing [bx] the name [indices]
    is not defined in the module.  [dx] and [dy] are scalars of the file
    format; another kind of value there is a [TypeError] in the model. *)
Definition fci_to_vtk (infile outfile : string) (scale : Q) : M (world PS) unit :=
  if negb have_evtk then ret tt
  else
    file_open infile;;
    dx ← file_read infile "dx";
    dy ← file_read infile "dy";
    bx ← file_read infile "bx";
    by_shape ← lift (shape_of bx);                  (* line 154 *)
    bz ← file_read infile "bz";
    '(bx, bz) ←
      match bx with
      | None =>                                     (* lines 157-162 *)
          xt_prime ← file_read infile "forward_xt_prime";
          zt_prime ← file_read infile "forward_zt_prime";
          raise (NameError "indices")
      | Some _ => ret (bx, bz)
      end;
    shape ← lift (shape_of bx);
    '(nx, ny, nz) ← lift (unpack3 shape);
    let by_ := np_ones3 nx ny nz in
    dx ← lift (as_scalar dx);
    dy ← lift (as_scalar dy);
    let dz := inject_Z (Z.of_nat nx) * dx / inject_Z (Z.of_nat nz) in
    let x := np_linspace0 (inject_Z (Z.of_nat nx) * dx) nx in
    let y := np_linspace0 (inject_Z (Z.of_nat ny) * dy) ny in
    let z := np_linspace0 (inject_Z (Z.of_nat nz) * dz) nz in
    bx ← lift (as_arr3 bx);
    bz ← lift (as_arr3 bz);
    gridToVTK outfile (mul_scalar1 x scale) y (mul_scalar1 z scale)
      (mul_scalar3 bx scale, by_, mul_scalar3 bz scale).

(** ** Specification-side definitions *)

(** Lines 53-54 on their own. *)
Definition report_progress (g : grid) (quiet : bool) (kwargs : KW) (j : nat)
  : M (world PS) unit :=
  if negb quiet then
    fraction ← lift (float_div (Z.of_nat j) (Z.of_nat (ny g) - 1));
    call_progress fraction kwargs
  else ret tt.

(** Lines 56-69 on their own: they do not touch the world. *)
Definition trace_both (g : grid) (field : magnetic_field) (x2d z2d : arr2)
    (j : nat) (st : maps_state) : result maps_state :=
  let '(fx, fz, bx, bz) := st in
  '(cx, cz) ← trace_plane g field (flatten x2d) (flatten z2d) j (delta_y g);
  '(cx', cz') ← trace_plane g field (flatten x2d) (flatten z2d) j (- delta_y g);
  Ok (set_plane j cx fx, set_plane j cz fz,
      set_plane j cx' bx, set_plane j cz' bz).

(** The maps as a function of grid, field and tracer alone. *)
Definition traced_maps (g : grid) (field : magnetic_field)
  : result (gmap string arr3) :=
  let '(x2d, z2d) := meshgrid (xarray g) (zarray g) in
  let z := np_zeros3 (nx g) (ny g) (nz g) in
  st ← for_pure (range (ny g)) (trace_both g field x2d z2d) (z, z, z, z);
  Ok (pack_maps st).

(** The fraction reported at plane [j]. *)
Definition fraction_at (g : grid) (j : nat) : Q :=
  inject_Z (Z.of_nat j) / inject_Z (Z.of_nat (ny g) - 1).

(** [a[:, j, :]] *)
Definition plane_at (a : arr3) (j : nat) : option arr2 := mapM (.!! j) a.

(** An array of shape (n0, n1, _). *)
Definition shape2 (n0 n1 : nat) (a : arr3) : Prop :=
  length a = n0 /\ Forall (fun r => length r = n1) a.

(** Two worlds with the same files and the same I/O history. *)
Definition same_disk (w w' : world PS) : Prop :=
  w_files w' = w_files w /\ w_vtk w' = w_vtk w /\ w_io w' = w_io w.

(** The entries at (i, j, k) of the four arrays. *)
Definition entries (st : maps_state) (i j k : nat)
  : option Q * option Q * option Q * option Q :=
  let '(fx, fz, bx, bz) := st in
  (get3 fx i j k, get3 fz i j k, get3 bx i j k, get3 bz i j k).

Definition shape4 (n0 n1 : nat) (st : maps_state) : Prop :=
  let '(fx, fz, bx, bz) := st in
  shape2 n0 n1 fx /\ shape2 n0 n1 fz /\ shape2 n0 n1 bx /\ shape2 n0 n1 bz.

(** The magnitude and the two components sampled at grid point (i, j, k). *)
Definition point_values (g : grid) (field : magnetic_field) (i j k : nat)
  : option (Q * Q * Q) :=
  xi ← xarray g !! i;
  zk ← zarray g !! k;
  yj ← yarray g !! j;
  Some (np_sqrt (Bxfunc field xi zk yj ^ 2 + Bzfunc field xi zk yj ^ 2),
        Bxfunc field xi zk yj, Bzfunc field xi zk yj).

(** The entries at (i, j, k) of the three sampled arrays. *)
Definition entries3 (st : field_state) (i j k : nat) : option (Q * Q * Q) :=
  let '(Bxy, totalbx, totalbz) := st in
  v1 ← get3 Bxy i j k; v2 ← get3 totalbx i j k; v3 ← get3 totalbz i j k;
  Some (v1, v2, v3).

(** The grid points that come before (i, j, k) in the order of the three
    nested loops. *)
Definition before (i j k : nat) (i' j' k' : nat) : Prop :=
  (i' < i \/ (i' = i /\ (j' < j \/ (j' = j /\ k' < k))))%nat.

(** The three arrays keep their shape, and the points in [D] hold their
    samples. *)
Definition sampled (g : grid) (field : magnetic_field)
    (D : nat -> nat -> nat -> Prop) (st : field_state) : Prop :=
  (let '(Bxy, totalbx, totalbz) := st in
   shape2 (nx g) (ny g) Bxy /\ shape2 (nx g) (ny g) totalbx
   /\ shape2 (nx g) (ny g) totalbz)
  /\ forall i j k, (i < nx g)%nat -> (j < ny g)%nat -> (k < nz g)%nat ->
       is_Some (entries3 st i j k)
       /\ (D i j k -> entries3 st i j k = point_values g field i j k).

(** What the grid file at [path] holds under [key]. *)
Definition file_get (path key : string) (w : world PS) : option value :=
  w_files w !! path ≫= (.!! key).

Definition file_exists (path : string) (w : world PS) : Prop :=
  is_Some (w_files w !! path).

(** The progress bar never raises. *)
Definition progress_total : Prop :=
  forall q kw s, snd (update_progress q kw s) = Ok tt.

(** The field vanishes everywhere. *)
Definition zero_field (field : magnetic_field) : Prop :=
  forall x z y, Bxfunc field x z y == 0 /\ Bzfunc field x z y == 0.

(** A tracer that is exact where the field vanishes: the field line
    through a point stays at that point. *)
Definition tracer_exact_at_rest : Prop :=
  forall field, zero_field field ->
  forall xs zs y0dy, follow_field_lines field xs zs y0dy = Ok (zip xs zs).

(** ** Further specification-side definitions *)

(** An array of shape (n0, n1, n2). *)
Definition shape3 (n0 n1 n2 : nat) (a : arr3) : Prop :=
  length a = n0
  /\ Forall (fun p => length p = n1 /\ Forall (fun r => length r = n2) p) a.

(** The keys of the maps dictionary, in the order write_maps stores them. *)
Definition map_keys : list string :=
  ["forward_xt_prime"; "forward_zt_prime";
   "backward_xt_prime"; "backward_zt_prime"].

(** The starting points handed to the tracer. *)
Definition x_coords (g : grid) : list Q :=
  flatten (fst (meshgrid (xarray g) (zarray g))).
Definition z_coords (g : grid) : list Q :=
  flatten (snd (meshgrid (xarray g) (zarray g))).

(** Entry (i, j, k) of the array stored under [key]. *)
Definition map_entry (m : gmap string arr3) (key : string) (i j k : nat)
  : option Q :=
  a ← m !! key; get3 a i j k.

(** Plane [j] traces in both directions. *)
Definition plane_traces (g : grid) (field : magnetic_field) (j : nat) : Prop :=
  is_Ok (trace_plane g field (x_coords g) (z_coords g) j (delta_y g))
  /\ is_Ok (trace_plane g field (x_coords g) (z_coords g) j (- delta_y g)).

(** Plane [j] stops with exception [e]: in the forward trace, or in the
    backward trace after the forward one went through. *)
Definition plane_fails (g : grid) (field : magnetic_field) (j : nat) (e : exn)
  : Prop :=
  trace_plane g field (x_coords g) (z_coords g) j (delta_y g) = Raise e
  \/ (is_Ok (trace_plane g field (x_coords g) (z_coords g) j (delta_y g))
      /\ trace_plane g field (x_coords g) (z_coords g) j (- delta_y g)
         = Raise e).

(** The keys write_maps can store, in the order of its writes. *)
Definition grid_file_keys : list string :=
  ["nx"; "ny"; "nz"; "dx"; "dy"; "ixseps1"; "ixseps2"; "g_22";
   "Bxy"; "bx"; "bz"] ++ map_keys.

(** The first of the four maps that the dictionary lacks. *)
Definition first_missing (maps : gmap string arr3) : option string :=
  find (fun key => match maps !! key with Some _ => false | None => true end)
       map_keys.

(** The I/O calls of a complete run of write_maps. *)
Definition write_events (gridfile : string) (legacy : bool) : list io_event :=
  [EvCreate gridfile; EvWrite gridfile "nx"; EvWrite gridfile "ny"]
  ++ (if legacy then [] else [EvWrite gridfile "nz"])
  ++ map (EvWrite gridfile)
       (["dx"; "dy"; "ixseps1"; "ixseps2"; "g_22"; "Bxy"; "bx"; "bz"]
        ++ map_keys).

(** A run that changes nothing but the grid file at [path] and the I/O
    history. *)
Definition frame (path : string) (w w' : world PS) : Prop :=
  w_progress w' = w_progress w
  /\ w_calls w' = w_calls w
  /\ w_vtk w' = w_vtk w
  /\ forall p, p ≠ path -> w_files w' !! p = w_files w !! p.

Definition frames {A} (path : string) (c : M (world PS) A) : Prop :=
  forall w, frame path w (fst (c w)).

(** A run that changes neither the grid files nor the progress bar. *)
Definition reads_only {A} (c : M (world PS) A) : Prop :=
  forall w,
    w_files (fst (c w)) = w_files w
    /\ w_progress (fst (c w)) = w_progress w
    /\ w_calls (fst (c w)) = w_calls w.

(** [bx.shape] as fci_to_vtk unpacks it. *)
Definition shape_nx (b : arr3) : nat := length b.
Definition shape_ny (b : arr3) : nat := length (nth 0 b []).
Definition shape_nz (b : arr3) : nat := length (nth 0 (nth 0 b []) []).

(** What [f.read] returns for a scalar of the file format, and for a 3-D
    array, when the key may also be missing. *)
Definition scalar_or_missing (v : option value) : Prop :=
  match v with
  | None | Some (VInt _) | Some (VFloat _) => True
  | _ => False
  end.

Definition arr3_or_missing (v : option value) : Prop :=
  match v with
  | None | Some (VArr3 _) => True
  | _ => False
  end.

(** ** The progress bar and the maps *)

Lemma make_maps_body_eq g field quiet kwargs x2d z2d j st w :
  make_maps_body g field quiet kwargs x2d z2d j st w
  = (report_progress g quiet kwargs j ≫=
       fun _ => lift (trace_both g field x2d z2d j st)) w.
Proof.
  destruct st as [[[fx fz] bx] bz].
  unfold make_maps_body, report_progress, trace_both.
  unfold mbind, M_bind, bind, lift.
  destruct (negb quiet); simpl.
  - destruct (float_div _ _) as [q|e]; simpl; [|reflexivity].
    destruct (call_progress q kwargs w) as [w1 [[]|e]]; simpl; [|reflexivity].
    destruct (trace_plane _ _ _ _ _ (delta_y g)) as [[cx cz]|e]; simpl;
      [|reflexivity].
    destruct (trace_plane _ _ _ _ _ (- delta_y g)) as [[cx' cz']|e]; reflexivity.
  - destruct (trace_plane _ _ _ _ _ (delta_y g)) as [[cx cz]|e]; simpl;
      [|reflexivity].
    destruct (trace_plane _ _ _ _ _ (- delta_y g)) as [[cx' cz']|e]; reflexivity.
Qed.

(** With [quiet] set the loop is the pure loop and leaves the world alone. *)
Lemma for_loop_quiet g field kwargs x2d z2d js st w :
  for_loop js (make_maps_body g field true kwargs x2d z2d) st w
  = (w, for_pure js (trace_both g field x2d z2d) st).
Proof.
  revert st w. induction js as [|j js IH]; intros st w; [reflexivity|].
  simpl. unfold mbind at 1, M_bind, bind.
  rewrite make_maps_body_eq. unfold report_progress; simpl.
  unfold mbind at 1, M_bind, bind, ret, lift; simpl.
  destruct (trace_both g field x2d z2d j st) as [st'|e]; simpl; [|reflexivity].
  apply IH.
Qed.

(** Whatever the progress bar does, a loop that completes has computed
    what the pure loop computes. *)
Lemma for_loop_result g field quiet kwargs x2d z2d js st w st' :
  snd (for_loop js (make_maps_body g field quiet kwargs x2d z2d) st w) = Ok st' ->
  for_pure js (trace_both g field x2d z2d) st = Ok st'.
Proof.
  revert st w. induction js as [|j js IH]; intros st w; simpl.
  - intros [= ->]. reflexivity.
  - unfold mbind at 1, M_bind, bind.
    rewrite make_maps_body_eq.
    unfold mbind at 1, M_bind, bind, lift.
    destruct (report_progress g quiet kwargs j w) as [w1 [[]|e]]; simpl;
      [|discriminate].
    destruct (trace_both g field x2d z2d j st) as [st1|e]; simpl;
      [|discriminate].
    apply IH.
Qed.

Lemma make_maps_quiet g field kwargs w :
  make_maps g field true kwargs w = (w, traced_maps g field).
Proof.
  unfold make_maps, traced_maps, meshgrid.
  unfold mbind at 1, M_bind, bind. rewrite for_loop_quiet.
  destruct (for_pure _ _ _) as [[[[fx fz] bx] bz]|e]; reflexivity.
Qed.

Lemma make_maps_result g field quiet kwargs w m :
  snd (make_maps g field quiet kwargs w) = Ok m ->
  traced_maps g field = Ok m.
Proof.
  unfold make_maps, traced_maps, meshgrid.
  unfold mbind at 1, M_bind, bind.
  destruct (for_loop _ _ _ w) as [w1 [st|e]] eqn:Hloop; [|discriminate].
  erewrite for_loop_result; [|rewrite Hloop; reflexivity].
  destruct st as [[[fx fz] bx] bz]. exact id.
Qed.

(** The progress bar is the only part of the world the loop touches. *)
Lemma report_progress_world g quiet kwargs j w :
  same_disk w (fst (report_progress g quiet kwargs j w)).
Proof.
  unfold report_progress. destruct (negb quiet); [|done].
  unfold mbind, M_bind, bind, lift, call_progress.
  destruct (float_div _ _) as [q|e]; [|done].
  destruct (update_progress _ _ _); done.
Qed.

Lemma for_loop_world g field quiet kwargs x2d z2d js st w :
  same_disk w
    (fst (for_loop js (make_maps_body g field quiet kwargs x2d z2d) st w)).
Proof.
  revert st w. induction js as [|j js IH]; intros st w; [done|].
  simpl. unfold mbind at 1, M_bind, bind.
  rewrite make_maps_body_eq. unfold mbind at 1, M_bind, bind, lift.
  pose proof (report_progress_world g quiet kwargs j w) as Hw.
  destruct (report_progress g quiet kwargs j w) as [w1 [[]|e]]; simpl in *;
    [|exact Hw].
  destruct (trace_both g field x2d z2d j st) as [st1|e]; simpl; [|exact Hw].
  specialize (IH st1 w1). destruct Hw as (Hf & Hv & Hi).
  destruct IH as (Hf' & Hv' & Hi'). split; [|split]; congruence.
Qed.

Lemma make_maps_world g field quiet kwargs w :
  same_disk w (fst (make_maps g field quiet kwargs w)).
Proof.
  unfold make_maps, meshgrid. unfold mbind at 1, M_bind, bind.
  pose proof (for_loop_world g field quiet kwargs
    (map (fun x => map (fun _ => x) (zarray g)) (xarray g))
    (map (fun _ => zarray g) (xarray g)) (range (ny g))
    (np_zeros3 (nx g) (ny g) (nz g), np_zeros3 (nx g) (ny g) (nz g),
     np_zeros3 (nx g) (ny g) (nz g), np_zeros3 (nx g) (ny g) (nz g)) w) as Hw.
  destruct (for_loop _ _ _ w) as [w1 [[[[fx fz] bx] bz]|e]]; exact Hw.
Qed.

(** A pure loop that completes has completed every plane. *)
Lemma for_pure_planes_ok g field x2d z2d js st st' j :
  for_pure js (trace_both g field x2d z2d) st = Ok st' ->
  j ∈ js ->
  is_Ok (trace_plane g field (flatten x2d) (flatten z2d) j (delta_y g)) /\
  is_Ok (trace_plane g field (flatten x2d) (flatten z2d) j (- delta_y g)).
Proof.
  revert st. induction js as [|j0 js IH]; intros st Hloop Hin.
  - inversion Hin.
  - simpl in Hloop. unfold mbind, result_bind in Hloop.
    destruct (trace_both g field x2d z2d j0 st) as [st1|e] eqn:Hstep;
      [|discriminate].
    apply elem_of_cons in Hin as [->|Hin]; [|exact (IH st1 Hloop Hin)].
    destruct st as [[[fx fz] bx] bz]. unfold trace_both in Hstep.
    unfold mbind, result_bind in Hstep.
    destruct (trace_plane _ _ _ _ j0 (delta_y g)) as [[cx cz]|e];
      [|discriminate].
    destruct (trace_plane _ _ _ _ j0 (- delta_y g)) as [[cx' cz']|e];
      [|discriminate].
    split; exact I.
Qed.

Lemma trace_plane_raise g field xs zs j y dy e :
  yarray g !! j = Some y ->
  follow_field_lines field xs zs (y, dy) = Raise e ->
  trace_plane g field xs zs j dy = Raise e.
Proof.
  intros Hy He. unfold trace_plane, index. rewrite Hy, He. reflexivity.
Qed.

(** The invocations of the progress bar made by a loop whose planes all
    trace. *)
Lemma for_loop_calls g field kwargs x2d z2d js st st' w :
  ny g ≠ 1%nat ->
  progress_total ->
  for_pure js (trace_both g field x2d z2d) st = Ok st' ->
  exists w',
    for_loop js (make_maps_body g field false kwargs x2d z2d) st w = (w', Ok st')
    /\ w_calls w' = w_calls w ++ map (fraction_at g) js.
Proof.
  intros Hny Htot. revert st w.
  induction js as [|j js IH]; intros st w Hpure; simpl in *.
  - injection Hpure as ->. exists w. split; [reflexivity|].
    symmetry; apply app_nil_r.
  - unfold mbind, result_bind in Hpure.
    destruct (trace_both g field x2d z2d j st) as [st1|e] eqn:Hstep;
      [|discriminate].
    unfold mbind at 1, M_bind, bind. rewrite make_maps_body_eq.
    unfold mbind at 1, M_bind, bind, lift, report_progress; simpl.
    unfold mbind at 1, M_bind, bind, lift, float_div.
    destruct (Z.eqb_spec (Z.of_nat (ny g) - 1) 0) as [Hz|_]; [lia|].
    unfold call_progress.
    pose proof (Htot (inject_Z (Z.of_nat j) / inject_Z (Z.of_nat (ny g) - 1))
                  kwargs (w_progress w)) as Hok.
    destruct (update_progress _ kwargs (w_progress w)) as [s r].
    simpl in Hok; subst r. rewrite Hstep.
    destruct (IH st1 (World s
      (w_calls w ++ [inject_Z (Z.of_nat j) / inject_Z (Z.of_nat (ny g) - 1)])
      (w_files w) (w_vtk w) (w_io w)) Hpure) as (w' & Hrun & Hcalls).
    exists w'. split; [exact Hrun|].
    rewrite Hcalls. simpl. rewrite <- app_assoc. reflexivity.
Qed.

Lemma StronglySorted_map_seq {A} (R : A -> A -> Prop) (f : nat -> A) s n :
  (forall a b, (a < b)%nat -> R (f a) (f b)) ->
  StronglySorted R (map f (seq s n)).
Proof.
  intros Hmono. revert s. induction n as [|n IH]; intros s; simpl.
  - constructor.
  - constructor; [apply IH|].
    apply Forall_forall. intros x Hx.
    apply list_elem_of_In, in_map_iff in Hx as (b & <- & Hb).
    apply in_seq in Hb. apply Hmono. lia.
Qed.

Lemma head_map_range {A} (f : nat -> A) n :
  head (map f (range (S n))) = Some (f 0%nat).
Proof. reflexivity. Qed.

Lemma last_map_range {A} (f : nat -> A) n :
  last (map f (range (S n))) = Some (f n).
Proof. unfold range. rewrite seq_S, map_app. apply last_snoc. Qed.

Lemma fraction_at_lt g a b :
  (1 < ny g)%nat -> (a < b)%nat -> fraction_at g a < fraction_at g b.
Proof.
  intros Hny Hab. unfold fraction_at.
  assert (Hd : 0 < inject_Z (Z.of_nat (ny g) - 1)).
  { replace 0 with (inject_Z 0) by reflexivity. rewrite <- Zlt_Qlt. lia. }
  unfold Qdiv. apply Qmult_lt_compat_r.
  - apply Qinv_lt_0_compat, Hd.
  - rewrite <- Zlt_Qlt. lia.
Qed.

Lemma fraction_at_first g : fraction_at g 0 == 0.
Proof. unfold fraction_at. simpl. unfold Qdiv. apply Qmult_0_l. Qed.

Lemma fraction_at_last g :
  (1 < ny g)%nat -> fraction_at g (ny g - 1) == 1.
Proof.
  intros Hny. unfold fraction_at.
  replace (Z.of_nat (ny g - 1)) with (Z.of_nat (ny g) - 1)%Z by lia.
  apply Qmult_inv_r. intros H.
  assert (Hd : 0 < inject_Z (Z.of_nat (ny g) - 1)).
  { replace 0 with (inject_Z 0) by reflexivity. rewrite <- Zlt_Qlt. lia. }
  rewrite H in Hd. exact (Qlt_irrefl _ Hd).
Qed.

(** ** Arrays: planes, rows and flat positions *)

Lemma lookup_map {A B} (f : A -> B) (l : list A) i :
  map f l !! i = f <$> l !! i.
Proof.
  revert i. induction l as [|x l IH]; intros [|i]; simpl; auto.
Qed.

Lemma chunks_length {A} n0 n1 (l : list A) : length (chunks n0 n1 l) = n0.
Proof.
  revert l. induction n0 as [|n IH]; intros l; simpl; [|rewrite IH]; reflexivity.
Qed.

(** Entry (i, k) of the reshaped array is entry [i * n1 + k] of the flat one. *)
Lemma chunks_lookup {A} n0 n1 (l : list A) i k :
  (i < n0)%nat -> (k < n1)%nat ->
  chunks n0 n1 l !! i ≫= (.!! k) = l !! (i * n1 + k)%nat.
Proof.
  revert l i. induction n0 as [|n IH]; intros l i Hi Hk; [lia|].
  destruct i as [|i]; simpl.
  - apply lookup_take_lt, Hk.
  - rewrite IH by lia. rewrite lookup_drop. f_equal. lia.
Qed.

(** The same for the flattening of rows of equal length. *)
Lemma concat_lookup {A} (rows : list (list A)) n i k :
  Forall (fun r => length r = n) rows -> (k < n)%nat ->
  concat rows !! (i * n + k)%nat = rows !! i ≫= (.!! k).
Proof.
  intros Hrows Hk. revert i.
  induction Hrows as [|r rows Hr _ IH]; intros i; [by destruct i|].
  destruct i as [|i]; simpl.
  - apply lookup_app_l. lia.
  - rewrite lookup_app_r by lia. rewrite <- IH. f_equal. lia.
Qed.

Lemma concat_length_uniform {A} (rows : list (list A)) n :
  Forall (fun r => length r = n) rows ->
  length (concat rows) = (length rows * n)%nat.
Proof.
  induction 1 as [|r rows Hr _ IH]; simpl; [reflexivity|].
  rewrite length_app, IH, Hr. reflexivity.
Qed.

Lemma np_zeros3_shape n0 n1 n2 : shape2 n0 n1 (np_zeros3 n0 n1 n2).
Proof.
  split; [apply length_replicate|].
  apply Forall_replicate, length_replicate.
Qed.

(** Assigning plane [j] keeps the shape, sets plane [j] and leaves the
    other planes alone. *)
Lemma set_plane_shape n0 n1 j rows a :
  shape2 n0 n1 a -> length rows = n0 -> shape2 n0 n1 (set_plane j rows a).
Proof.
  intros [Hlen Hrows] Hr. unfold set_plane. split.
  - rewrite length_zip_with. lia.
  - apply Forall_lookup. intros i r Hi.
    apply lookup_zip_with_Some in Hi as (pl & row & -> & Hpl & _).
    rewrite length_insert. exact (Forall_lookup_1 _ _ _ _ Hrows Hpl).
Qed.

Lemma set_plane_get_eq n0 n1 j rows a i k :
  shape2 n0 n1 a -> length rows = n0 -> (j < n1)%nat ->
  get3 (set_plane j rows a) i j k = rows !! i ≫= (.!! k).
Proof.
  intros [Hlen Hrows] Hr Hj. unfold get3, set_plane.
  rewrite lookup_zip_with.
  destruct (a !! i) as [pl|] eqn:Hpl; simpl.
  - destruct (rows !! i) as [row|] eqn:Hrow; simpl; [|reflexivity].
    rewrite list_lookup_insert_eq; [reflexivity|].
    rewrite (Forall_lookup_1 _ _ _ _ Hrows Hpl). exact Hj.
  - apply lookup_ge_None in Hpl.
    rewrite (proj2 (lookup_ge_None rows i)) by lia. reflexivity.
Qed.

Lemma set_plane_get_ne n0 n1 j rows a i j' k :
  shape2 n0 n1 a -> length rows = n0 -> j' ≠ j ->
  get3 (set_plane j rows a) i j' k = get3 a i j' k.
Proof.
  intros [Hlen Hrows] Hr Hj. unfold get3, set_plane.
  rewrite lookup_zip_with.
  destruct (a !! i) as [pl|] eqn:Hpl; simpl; [|reflexivity].
  destruct (rows !! i) as [row|] eqn:Hrow; simpl.
  - rewrite list_lookup_insert_ne by congruence. reflexivity.
  - apply lookup_ge_None in Hrow. apply lookup_lt_Some in Hpl. lia.
Qed.

(** ** What one traced plane holds *)

Lemma trace_plane_inv g field xs zs j dy cx cz :
  trace_plane g field xs zs j dy = Ok (cx, cz) ->
  exists y coord,
    yarray g !! j = Some y
    /\ follow_field_lines field xs zs (y, dy) = Ok coord
    /\ length coord = (nx g * nz g)%nat
    /\ cx = map (map (fun p => fst p / delta_x g)) (chunks (nx g) (nz g) coord)
    /\ cz = map (map (fun p => snd p / delta_z g)) (chunks (nx g) (nz g) coord).
Proof.
  unfold trace_plane, index, reshape.
  destruct (yarray g !! j) as [y|]; [|discriminate].
  destruct (follow_field_lines field xs zs (y, dy)) as [coord|e] eqn:Ht;
    [|discriminate].
  destruct (Nat.eqb_spec (length coord) (nx g * nz g)) as [Hlen|_];
    [|discriminate].
  intros [= <- <-]. exists y, coord. repeat split; auto.
Qed.

Lemma trace_plane_lengths g field xs zs j dy cx cz :
  trace_plane g field xs zs j dy = Ok (cx, cz) ->
  length cx = nx g /\ length cz = nx g.
Proof.
  intros H. apply trace_plane_inv in H as (y & coord & _ & _ & _ & -> & ->).
  rewrite !length_map, chunks_length. auto.
Qed.

Lemma rows_entry {A} (f : A -> Q) n0 n1 (coord : list A) i k :
  (i < n0)%nat -> (k < n1)%nat ->
  map (map f) (chunks n0 n1 coord) !! i ≫= (.!! k)
  = f <$> coord !! (i * n1 + k)%nat.
Proof.
  intros Hi Hk. rewrite <- (chunks_lookup n0 n1 coord i k Hi Hk).
  rewrite lookup_map.
  destruct (chunks n0 n1 coord !! i) as [row|]; simpl; [|reflexivity].
  apply lookup_map.
Qed.

(** ** The loop over the planes *)

Lemma for_pure_trace_both g field x2d z2d n s st st' :
  (s + n <= ny g)%nat ->
  shape4 (nx g) (ny g) st ->
  for_pure (seq s n) (trace_both g field x2d z2d) st = Ok st' ->
  shape4 (nx g) (ny g) st'
  /\ (forall j, (s <= j < s + n)%nat ->
        exists cx cz cx' cz',
          trace_plane g field (flatten x2d) (flatten z2d) j (delta_y g)
            = Ok (cx, cz)
          /\ trace_plane g field (flatten x2d) (flatten z2d) j (- delta_y g)
            = Ok (cx', cz')
          /\ forall i k,
               entries st' i j k
               = (cx !! i ≫= (.!! k), cz !! i ≫= (.!! k),
                  cx' !! i ≫= (.!! k), cz' !! i ≫= (.!! k)))
  /\ (forall j, (j < s \/ s + n <= j)%nat ->
        forall i k, entries st' i j k = entries st i j k).
Proof.
  revert s st. induction n as [|n IH]; intros s st Hle Hshape Hloop.
  - injection Hloop as <-. split; [exact Hshape|]. split; [lia|reflexivity].
  - simpl in Hloop. unfold mbind at 1, result_bind in Hloop.
    destruct (trace_both g field x2d z2d s st) as [st1|e] eqn:Hstep;
      [|discriminate].
    destruct st as [[[fx fz] bx] bz]. unfold trace_both in Hstep.
    unfold mbind, result_bind in Hstep.
    destruct (trace_plane _ _ _ _ s (delta_y g)) as [[cx cz]|e] eqn:Hf;
      [|discriminate].
    destruct (trace_plane _ _ _ _ s (- delta_y g)) as [[cx' cz']|e] eqn:Hb;
      [|discriminate].
    injection Hstep as <-.
    destruct (trace_plane_lengths _ _ _ _ _ _ _ _ Hf) as [Hcx Hcz].
    destruct (trace_plane_lengths _ _ _ _ _ _ _ _ Hb) as [Hcx' Hcz'].
    destruct Hshape as (Sfx & Sfz & Sbx & Sbz).
    assert (Hshape1 : shape4 (nx g) (ny g)
              (set_plane s cx fx, set_plane s cz fz,
               set_plane s cx' bx, set_plane s cz' bz)).
    { unfold shape4.
      split; [|split; [|split]]; apply set_plane_shape; assumption. }
    destruct (IH (S s) _ ltac:(lia) Hshape1 Hloop) as (Hshape' & Hin & Hout).
    split; [exact Hshape'|]. split.
    + intros j Hj. destruct (decide (j = s)) as [->|Hne].
      * exists cx, cz, cx', cz'. split; [exact Hf|]. split; [exact Hb|].
        intros i k. rewrite Hout by lia. unfold entries.
        rewrite !(set_plane_get_eq (nx g) (ny g)) by (assumption || lia).
        reflexivity.
      * apply Hin. lia.
    + intros j Hj i k. rewrite Hout by lia. unfold entries.
      rewrite !(set_plane_get_ne (nx g) (ny g)) by (assumption || lia).
      reflexivity.
Qed.

(** A loop whose planes all trace completes. *)
Lemma for_pure_trace_both_ok g field x2d z2d js st :
  (forall j, j ∈ js ->
     is_Ok (trace_plane g field (flatten x2d) (flatten z2d) j (delta_y g))
     /\ is_Ok (trace_plane g field (flatten x2d) (flatten z2d) j (- delta_y g))) ->
  is_Ok (for_pure js (trace_both g field x2d z2d) st).
Proof.
  revert st. induction js as [|j js IH]; intros st Hall; [exact I|].
  simpl. unfold mbind at 1, result_bind.
  destruct (Hall j) as [Hf Hb]; [apply elem_of_cons; auto|].
  destruct st as [[[fx fz] bx] bz]. unfold trace_both.
  unfold mbind at 2 3, result_bind.
  destruct (trace_plane _ _ _ _ j (delta_y g)) as [[cx cz]|e]; [|contradiction].
  destruct (trace_plane _ _ _ _ j (- delta_y g)) as [[cx' cz']|e];
    [|contradiction].
  apply IH. intros j' Hj'. apply Hall, elem_of_cons. auto.
Qed.

(** ** The starting points *)

Lemma meshgrid_x_uniform (xs zs : list Q) :
  Forall (fun r => length r = length zs) (fst (meshgrid xs zs)).
Proof.
  simpl. apply Forall_forall. intros r Hr.
  apply list_elem_of_In, in_map_iff in Hr as (x & <- & _). apply length_map.
Qed.

Lemma meshgrid_z_uniform (xs zs : list Q) :
  Forall (fun r => length r = length zs) (snd (meshgrid xs zs)).
Proof.
  simpl. apply Forall_forall. intros r Hr.
  apply list_elem_of_In, in_map_iff in Hr as (x & <- & _). reflexivity.
Qed.

Lemma x_coords_lookup (xs zs : list Q) i k x z :
  xs !! i = Some x -> zs !! k = Some z ->
  flatten (fst (meshgrid xs zs)) !! (i * length zs + k)%nat = Some x.
Proof.
  intros Hx Hz. unfold flatten.
  rewrite (concat_lookup _ (length zs)).
  - simpl. rewrite lookup_map, Hx. simpl. rewrite lookup_map, Hz. reflexivity.
  - apply meshgrid_x_uniform.
  - exact (lookup_lt_Some _ _ _ Hz).
Qed.

Lemma z_coords_lookup (xs zs : list Q) i k x z :
  xs !! i = Some x -> zs !! k = Some z ->
  flatten (snd (meshgrid xs zs)) !! (i * length zs + k)%nat = Some z.
Proof.
  intros Hx Hz. unfold flatten.
  rewrite (concat_lookup _ (length zs)).
  - simpl. rewrite lookup_map, Hx. simpl. exact Hz.
  - apply meshgrid_z_uniform.
  - exact (lookup_lt_Some _ _ _ Hz).
Qed.

Lemma coords_length (xs zs : list Q) :
  length (flatten (fst (meshgrid xs zs))) = (length xs * length zs)%nat
  /\ length (flatten (snd (meshgrid xs zs))) = (length xs * length zs)%nat.
Proof.
  unfold flatten. split.
  - rewrite (concat_length_uniform _ (length zs)) by apply meshgrid_x_uniform.
    simpl. rewrite length_map. reflexivity.
  - rewrite (concat_length_uniform _ (length zs)) by apply meshgrid_z_uniform.
    simpl. rewrite length_map. reflexivity.
Qed.

(** On a well-formed grid, a tracer that is exact at rest traces every
    plane of a vanishing field, and the plane holds the starting points
    divided by the steps. *)
Lemma trace_plane_at_rest g field j dy :
  wf_grid g -> zero_field field -> tracer_exact_at_rest ->
  (j < ny g)%nat ->
  exists cx cz,
    trace_plane g field (flatten (fst (meshgrid (xarray g) (zarray g))))
      (flatten (snd (meshgrid (xarray g) (zarray g)))) j dy = Ok (cx, cz)
    /\ forall i k x z,
         xarray g !! i = Some x -> zarray g !! k = Some z ->
         cx !! i ≫= (.!! k) = Some (x / delta_x g)
         /\ cz !! i ≫= (.!! k) = Some (z / delta_z g).
Proof.
  intros Hwf Hzero Hexact Hj.
  destruct Hwf as [Hxa Hya Hza _ _ _].
  destruct (lookup_lt_is_Some_2 (yarray g) j ltac:(lia)) as [y Hy].
  destruct (coords_length (xarray g) (zarray g)) as [Lx Lz].
  unfold trace_plane, index, reshape.
  rewrite Hy, (Hexact field Hzero), length_zip, Lx, Lz, Nat.min_id, Hxa, Hza.
  rewrite Nat.eqb_refl. eexists _, _. split; [reflexivity|].
  intros i k x z Hx Hz.
  pose proof (lookup_lt_Some _ _ _ Hx) as Hi.
  pose proof (lookup_lt_Some _ _ _ Hz) as Hk.
  rewrite !rows_entry by lia.
  assert (Hpt : zip (flatten (fst (meshgrid (xarray g) (zarray g))))
                    (flatten (snd (meshgrid (xarray g) (zarray g))))
                  !! (i * nz g + k)%nat = Some (x, z)).
  { apply lookup_zip_Some. rewrite <- Hza.
    split; [eapply x_coords_lookup | eapply z_coords_lookup]; eassumption. }
  rewrite Hpt. split; reflexivity.
Qed.

Lemma pack_maps_lookup fx fz bx bz :
  pack_maps (fx, fz, bx, bz) !! "forward_xt_prime" = Some fx
  /\ pack_maps (fx, fz, bx, bz) !! "forward_zt_prime" = Some fz
  /\ pack_maps (fx, fz, bx, bz) !! "backward_xt_prime" = Some bx
  /\ pack_maps (fx, fz, bx, bz) !! "backward_zt_prime" = Some bz.
Proof.
  unfold pack_maps. split; [|split; [|split]].
  - apply lookup_insert_eq.
  - rewrite lookup_insert_ne by done. apply lookup_insert_eq.
  - rewrite !lookup_insert_ne by done. apply lookup_insert_eq.
  - rewrite !lookup_insert_ne by done. apply lookup_insert_eq.
Qed.

Lemma traced_maps_inv g field m :
  traced_maps g field = Ok m ->
  exists st,
    m = pack_maps st
    /\ for_pure (range (ny g))
         (trace_both g field (fst (meshgrid (xarray g) (zarray g)))
                             (snd (meshgrid (xarray g) (zarray g))))
         (np_zeros3 (nx g) (ny g) (nz g), np_zeros3 (nx g) (ny g) (nz g),
          np_zeros3 (nx g) (ny g) (nz g), np_zeros3 (nx g) (ny g) (nz g))
       = Ok st.
Proof.
  unfold traced_maps, meshgrid. unfold mbind, result_bind. simpl.
  destruct (for_pure _ _ _) as [st|e]; [|discriminate].
  intros [= <-]. exists st. split; reflexivity.
Qed.

(** A quotient by a positive step is the index exactly when the
    coordinate is the index times the step. *)
Lemma index_iff (x d : Q) (i : nat) :
  0 < d ->
  x / d == inject_Z (Z.of_nat i) <-> x == inject_Z (Z.of_nat i) * d.
Proof.
  intros Hd. assert (Hne : ~ d == 0).
  { intros H. rewrite H in Hd. exact (Qlt_irrefl _ Hd). }
  split; intros H.
  - rewrite <- H. rewrite Qmult_comm. symmetry. apply Qmult_div_r, Hne.
  - rewrite H. apply Qdiv_mult_l, Hne.
Qed.

(** ** Point updates *)

Ltac not_all_equal :=
  let H := fresh in intros H; decompose [and] H; congruence.

Lemma get3_set3 i j k v a i' j' k' :
  get3 (set3 i j k v a) i' j' k'
  = if decide (i = i' /\ j = j' /\ k = k')
    then (fun _ => v) <$> get3 a i j k
    else get3 a i' j' k'.
Proof.
  unfold get3, set3. rewrite list_lookup_alter.
  destruct (decide (i = i')) as [<-|Hi].
  - destruct (a !! i) as [pl|]; simpl; [|by case_decide].
    rewrite list_lookup_alter.
    destruct (decide (j = j')) as [<-|Hj].
    + destruct (pl !! j) as [row|]; simpl; [|by case_decide].
      rewrite list_lookup_insert.
      destruct (decide (k = k')) as [<-|Hk].
      * destruct (row !! k) eqn:Hrow; simpl.
        -- apply lookup_lt_Some in Hrow.
           rewrite decide_True by auto. by rewrite decide_True by auto.
        -- apply lookup_ge_None in Hrow.
           rewrite decide_False by lia. by rewrite decide_True by auto.
      * rewrite decide_False by not_all_equal. by rewrite decide_False by not_all_equal.
    + by rewrite decide_False by not_all_equal.
  - by rewrite decide_False by not_all_equal.
Qed.

Lemma set3_shape n0 n1 i j k v a :
  shape2 n0 n1 a -> shape2 n0 n1 (set3 i j k v a).
Proof.
  intros [Hlen Hrows]. unfold set3. split.
  - by rewrite length_alter.
  - apply Forall_alter; [exact Hrows|].
    intros pl _ Hpl. by rewrite length_alter.
Qed.

Lemma entries3_set3 i j k v1 v2 v3 Bxy tbx tbz i' j' k' :
  entries3 (set3 i j k v1 Bxy, set3 i j k v2 tbx, set3 i j k v3 tbz) i' j' k'
  = if decide (i = i' /\ j = j' /\ k = k')
    then (fun _ => (v1, v2, v3)) <$> entries3 (Bxy, tbx, tbz) i j k
    else entries3 (Bxy, tbx, tbz) i' j' k'.
Proof.
  unfold entries3. rewrite !get3_set3. case_decide; [|reflexivity].
  destruct (get3 Bxy i j k); simpl; [|reflexivity].
  destruct (get3 tbx i j k); simpl; [|reflexivity].
  destruct (get3 tbz i j k); reflexivity.
Qed.

(** ** Loops with an invariant *)

Lemma for_pure_app {A} (l1 l2 : list nat) (body : nat -> A -> result A) a :
  for_pure (l1 ++ l2) body a = (a' ← for_pure l1 body a; for_pure l2 body a').
Proof.
  revert a. induction l1 as [|j l1 IH]; intros a; [reflexivity|].
  simpl. unfold mbind, result_bind.
  destruct (body j a) as [a1|e]; [apply IH|reflexivity].
Qed.



(** A loop over [s, s + n) whose body keeps the invariant and does not
    raise completes with the invariant at [s + n]. *)
Lemma for_pure_invariant {A} (I : nat -> A -> Prop) body s n (a : A) :
  I s a ->
  (forall j a, (s <= j < s + n)%nat -> I j a ->
     exists a', body j a = Ok a' /\ I (S j) a') ->
  exists a', for_pure (seq s n) body a = Ok a' /\ I (s + n)%nat a'.
Proof.
  revert s a. induction n as [|n IH]; intros s a Ha Hbody; simpl.
  - exists a. rewrite Nat.add_0_r. auto.
  - destruct (Hbody s a ltac:(lia) Ha) as (a1 & Hstep & Ha1).
    unfold mbind, result_bind. rewrite Hstep.
    destruct (IH (S s) a1 Ha1) as (a' & Hloop & Ha').
    { intros j b Hj. apply Hbody. lia. }
    exists a'. split; [exact Hloop|].
    replace (s + S n)%nat with (S s + n)%nat by lia. exact Ha'.
Qed.

(** ** Sampling the field (lines 97-106) *)

Lemma get3_zeros n0 n1 n2 i j k :
  (i < n0)%nat -> (j < n1)%nat -> (k < n2)%nat ->
  get3 (np_zeros3 n0 n1 n2) i j k = Some 0.
Proof.
  intros Hi Hj Hk. unfold get3, np_zeros3.
  rewrite lookup_replicate_2 by exact Hi. simpl.
  rewrite lookup_replicate_2 by exact Hj. simpl.
  apply lookup_replicate_2, Hk.
Qed.

Lemma sampled_weaken g field (D D' : nat -> nat -> nat -> Prop) st :
  sampled g field D st ->
  (forall i j k, (i < nx g)%nat -> (j < ny g)%nat -> (k < nz g)%nat ->
     D' i j k -> D i j k) ->
  sampled g field D' st.
Proof.
  intros [Hshape Hent] Hsub. split; [exact Hshape|].
  intros i j k Hi Hj Hk. destruct (Hent i j k Hi Hj Hk) as [Hsome Hval].
  split; [exact Hsome|]. intros HD. apply Hval, Hsub; assumption.
Qed.

Lemma point_values_is_Some g field i j k :
  wf_grid g -> (i < nx g)%nat -> (j < ny g)%nat -> (k < nz g)%nat ->
  is_Some (point_values g field i j k).
Proof.
  intros [Hx Hy Hz _ _ _] Hi Hj Hk. unfold point_values.
  destruct (lookup_lt_is_Some_2 (xarray g) i ltac:(lia)) as [x ->].
  destruct (lookup_lt_is_Some_2 (zarray g) k ltac:(lia)) as [z ->].
  destruct (lookup_lt_is_Some_2 (yarray g) j ltac:(lia)) as [y ->].
  simpl. eauto.
Qed.

Lemma sample_point_spec g field D i j k st :
  wf_grid g -> (i < nx g)%nat -> (j < ny g)%nat -> (k < nz g)%nat ->
  sampled g field D st ->
  exists st',
    sample_point g field i j k st = Ok st'
    /\ sampled g field
         (fun i' j' k' => D i' j' k' \/ (i' = i /\ j' = j /\ k' = k)) st'.
Proof.
  intros Hwf Hi Hj Hk [Hshape Hent].
  destruct st as [[Bxy tbx] tbz]. destruct Hshape as (S1 & S2 & S3).
  destruct (lookup_lt_is_Some_2 (xarray g) i) as [x Hx]; [destruct Hwf; lia|].
  destruct (lookup_lt_is_Some_2 (zarray g) k) as [z Hz]; [destruct Hwf; lia|].
  destruct (lookup_lt_is_Some_2 (yarray g) j) as [y Hy]; [destruct Hwf; lia|].
  assert (Hpv : point_values g field i j k
                = Some (np_sqrt (Bxfunc field x z y ^ 2 + Bzfunc field x z y ^ 2),
                        Bxfunc field x z y, Bzfunc field x z y)).
  { unfold point_values. rewrite Hx, Hz, Hy. reflexivity. }
  unfold sample_point, index. rewrite Hx, Hz, Hy.
  unfold mbind, result_bind.
  eexists. split; [reflexivity|]. split.
  - split; [|split]; apply set3_shape; assumption.
  - intros i' j' k' Hi' Hj' Hk'. rewrite entries3_set3.
    destruct (Hent i j k Hi Hj Hk) as [[v Hv] _].
    destruct (Hent i' j' k' Hi' Hj' Hk') as [Hsome Hval].
    case_decide as Heq.
    + destruct Heq as (<- & <- & <-). rewrite Hv, Hpv. simpl.
      split; [eauto|reflexivity].
    + split; [exact Hsome|]. intros [HD|Hsame]; [exact (Hval HD)|].
      exfalso. apply Heq. destruct Hsame as (-> & -> & ->). auto.
Qed.

Lemma sample_field_spec g field :
  wf_grid g ->
  exists st,
    sample_field g field = Ok st
    /\ sampled g field (fun _ _ _ => True) st.
Proof.
  intros Hwf. unfold sample_field, range.
  destruct (for_pure_invariant
    (fun i => sampled g field (before i 0 0))
    (fun i => for_pure (seq 0 (ny g)) (fun j =>
       for_pure (seq 0 (nz g)) (fun k => sample_point g field i j k)))
    0 (nx g)
    (np_zeros3 (nx g) (ny g) (nz g), np_zeros3 (nx g) (ny g) (nz g),
     np_zeros3 (nx g) (ny g) (nz g))) as (st & Hrun & Hst).
  - split; [split; [|split]; apply np_zeros3_shape|].
    intros i j k Hi Hj Hk. unfold entries3.
    rewrite !get3_zeros by assumption. simpl.
    split; [eauto|]. unfold before. lia.
  - intros i st [_ Hi] Hst.
    destruct (for_pure_invariant
      (fun j => sampled g field (before i j 0))
      (fun j => for_pure (seq 0 (nz g)) (fun k => sample_point g field i j k))
      0 (ny g) st Hst) as (st' & Hrun & Hst').
    + intros j st1 [_ Hj] Hst1.
      destruct (for_pure_invariant
        (fun k => sampled g field (before i j k))
        (fun k => sample_point g field i j k)
        0 (nz g) st1 Hst1) as (st2 & Hrun2 & Hst2).
      * intros k st2 [_ Hk] Hst2.
        destruct (sample_point_spec g field _ i j k st2 Hwf Hi Hj Hk Hst2)
          as (st3 & Hstep & Hst3).
        exists st3. split; [exact Hstep|].
        apply (sampled_weaken _ _ _ _ _ Hst3).
        unfold before. intros i' j' k' _ _ _. lia.
      * exists st2. split; [exact Hrun2|].
        apply (sampled_weaken _ _ _ _ _ Hst2).
        unfold before. intros i' j' k' _ _ Hk'. simpl. lia.
    + exists st'. split; [exact Hrun|].
      apply (sampled_weaken _ _ _ _ _ Hst').
      unfold before. intros i' j' k' _ Hj' _. simpl. lia.
  - exists st. split; [exact Hrun|].
    apply (sampled_weaken _ _ _ _ _ Hst).
    unfold before. intros i' j' k' Hi' _ _ _. simpl. lia.
Qed.

(** ** Running the file operations *)

Lemma run_create {A} path (k : unit -> M (world PS) A) w :
  (file_create path ≫= k) w = k tt (fst (file_create path w)).
Proof. reflexivity. Qed.

Lemma run_write {A} path key v (k : unit -> M (world PS) A) w :
  (file_write path key v ≫= k) w = k tt (fst (file_write path key v w)).
Proof. reflexivity. Qed.

Lemma run_ret {A B} (a : A) (k : A -> M (world PS) B) w : (ret a ≫= k) w = k a w.
Proof. reflexivity. Qed.

Lemma run_lift_ok {A B} (a : A) (k : A -> M (world PS) B) w :
  (lift (Ok a) ≫= k) w = k a w.
Proof. reflexivity. Qed.

Lemma run_lift_raise {A B} e (k : A -> M (world PS) B) w :
  (lift (Raise e) ≫= k) w = (w, Raise e).
Proof. reflexivity. Qed.

Lemma write_map_some maps path legacy key m :
  maps !! key = Some m ->
  write_map maps path legacy key
  = file_write path key (VArr3 (if legacy then transform3D m else m)).
Proof. intros Hm. unfold write_map, dict_get. rewrite Hm. reflexivity. Qed.

Lemma run_write_map_some {A} maps path legacy key m (k : unit -> M (world PS) A) w :
  maps !! key = Some m ->
  (write_map maps path legacy key ≫= k) w
  = k tt (fst (file_write path key
                 (VArr3 (if legacy then transform3D m else m)) w)).
Proof. intros Hm. rewrite (write_map_some _ _ _ _ _ Hm). reflexivity. Qed.

Lemma write_map_none maps path legacy key w :
  maps !! key = None ->
  write_map maps path legacy key w = (w, Raise (KeyError key)).
Proof. intros Hm. unfold write_map, dict_get. rewrite Hm. reflexivity. Qed.

Lemma run_write_map_none {A} maps path legacy key (k : unit -> M (world PS) A) w :
  maps !! key = None ->
  (write_map maps path legacy key ≫= k) w = (w, Raise (KeyError key)).
Proof.
  intros Hm. unfold mbind, M_bind, bind.
  rewrite (write_map_none _ _ _ _ _ Hm). reflexivity.
Qed.

Lemma file_exists_create path w : file_exists path (fst (file_create path w)).
Proof. unfold file_exists. simpl. rewrite lookup_insert_eq. eauto. Qed.

Lemma file_exists_write path key v w :
  file_exists path w -> file_exists path (fst (file_write path key v w)).
Proof.
  unfold file_exists. simpl. intros [f Hf].
  rewrite lookup_alter_eq, Hf. simpl. eauto.
Qed.

Lemma file_get_create path key w :
  file_get path key (fst (file_create path w)) = None.
Proof. unfold file_get. simpl. rewrite lookup_insert_eq. reflexivity. Qed.

Lemma file_get_write_eq path key v w :
  file_exists path w ->
  file_get path key (fst (file_write path key v w)) = Some v.
Proof.
  unfold file_exists, file_get. simpl. intros [f Hf].
  rewrite lookup_alter_eq, Hf. simpl. apply lookup_insert_eq.
Qed.

Lemma file_get_write_ne path key key' v w :
  key ≠ key' ->
  file_get path key' (fst (file_write path key v w)) = file_get path key' w.
Proof.
  unfold file_get. simpl. intros Hne. rewrite lookup_alter_eq.
  destruct (w_files w !! path) as [f|]; simpl; [|reflexivity].
  apply lookup_insert_ne, Hne.
Qed.

Lemma float_recip_ok q : ~ q == 0 -> float_recip q = Ok (1 / q).
Proof.
  intros Hq. unfold float_recip.
  destruct (Qeq_bool q 0) eqn:E; [|reflexivity].
  apply Qeq_bool_iff in E. contradiction.
Qed.

(** ** What write_maps leaves in the grid file *)

Ltac step_io_in H :=
  first [ rewrite run_create in H | rewrite run_write in H
        | rewrite run_ret in H | rewrite run_lift_ok in H
        | rewrite run_lift_raise in H ];
  cbv beta iota in H.

Ltac solve_exists :=
  repeat lazymatch goal with
         | |- file_exists _ (fst (file_write _ _ _ _)) =>
             apply file_exists_write
         end;
  apply file_exists_create.

Ltac solve_get :=
  cbn [fst snd];
  repeat (rewrite file_get_write_ne by discriminate);
  lazymatch goal with
  | |- file_get _ _ (fst (file_write _ _ _ _)) = _ =>
      apply file_get_write_eq; solve_exists
  | |- file_get _ _ (fst (file_create _ _)) = _ => apply file_get_create
  end.

Ltac split_all := repeat match goal with |- _ /\ _ => split end.

Lemma run_eq {A} (x : world PS * result A) w' r :
  x = (w', r) -> w' = fst x /\ r = snd x.
Proof. intros ->. auto. Qed.

Ltac finish_run H := apply run_eq in H as [-> ->].

(** A run that stopped at a missing map: what was written before stays. *)
Ltac missing_map H :=
  finish_run H; split_all; try solve_get;
  try (intros _; split_all; solve_get);
  intros _ m1 m2 m3 m4 H1 H2 H3 H4; congruence.

Lemma write_maps_outcome g field maps gridfile legacy w w' r :
  wf_grid g -> ~ Rmaj g ^ 2 == 0 ->
  write_maps g field maps gridfile legacy w = (w', r) ->
  exists Bxy tbx tbz,
    sample_field g field = Ok (Bxy, tbx, tbz)
    /\ file_get gridfile "nx" w' = Some (VInt (Z.of_nat (nx g)))
    /\ file_get gridfile "ny" w' = Some (VInt (Z.of_nat (ny g)))
    /\ file_get gridfile "nz" w'
       = (if legacy then None else Some (VInt (Z.of_nat (nz g))))
    /\ file_get gridfile "dx" w' = Some (VFloat (delta_x g))
    /\ file_get gridfile "dy" w' = Some (VFloat (delta_y g))
    /\ file_get gridfile "ixseps1" w' = Some (VInt (Z.of_nat (nx g) + 1))
    /\ file_get gridfile "ixseps2" w' = Some (VInt (Z.of_nat (nx g) + 1))
    /\ file_get gridfile "g_22" w'
       = Some (VArr2 (add_scalar2 (np_zeros2 (nx g) (ny g)) (1 / Rmaj g ^ 2)))
    /\ ((0 < nz g)%nat ->
        file_get gridfile "Bxy" w'
          = Some (VArr2 (map (map (fun r => nth 0 r 0)) Bxy))
        /\ file_get gridfile "bx" w' = Some (VArr3 tbx)
        /\ file_get gridfile "bz" w' = Some (VArr3 tbz))
    /\ ((0 < nz g)%nat ->
        forall m1 m2 m3 m4,
          maps !! "forward_xt_prime" = Some m1 ->
          maps !! "forward_zt_prime" = Some m2 ->
          maps !! "backward_xt_prime" = Some m3 ->
          maps !! "backward_zt_prime" = Some m4 ->
          r = Ok tt
          /\ file_get gridfile "forward_xt_prime" w'
             = Some (VArr3 (if legacy then transform3D m1 else m1))
          /\ file_get gridfile "forward_zt_prime" w'
             = Some (VArr3 (if legacy then transform3D m2 else m2))
          /\ file_get gridfile "backward_xt_prime" w'
             = Some (VArr3 (if legacy then transform3D m3 else m3))
          /\ file_get gridfile "backward_zt_prime" w'
             = Some (VArr3 (if legacy then transform3D m4 else m4))).
Proof.
  intros Hwf HR Hrun.
  destruct (sample_field_spec g field Hwf) as ([[Bxy tbx] tbz] & Hs & _).
  exists Bxy, tbx, tbz. split; [exact Hs|].
  unfold write_maps in Hrun.
  rewrite Hs, (float_recip_ok _ HR) in Hrun. cbv beta iota in Hrun.
  unfold slice_k0 in Hrun.
  destruct legacy; cbn [negb] in Hrun; repeat step_io_in Hrun.
  all: destruct (Nat.eqb_spec (nz g) 0) as [Hz|Hz]; repeat step_io_in Hrun.
  1, 3: finish_run Hrun; split_all; try solve_get; intros; lia.
  all: destruct (maps !! "forward_xt_prime") as [a1|] eqn:E1;
    [ rewrite (run_write_map_some _ _ _ _ _ _ _ E1) in Hrun
    | rewrite (run_write_map_none _ _ _ _ _ _ E1) in Hrun; missing_map Hrun ].
  all: destruct (maps !! "forward_zt_prime") as [a2|] eqn:E2;
    [ rewrite (run_write_map_some _ _ _ _ _ _ _ E2) in Hrun
    | rewrite (run_write_map_none _ _ _ _ _ _ E2) in Hrun; missing_map Hrun ].
  all: destruct (maps !! "backward_xt_prime") as [a3|] eqn:E3;
    [ rewrite (run_write_map_some _ _ _ _ _ _ _ E3) in Hrun
    | rewrite (run_write_map_none _ _ _ _ _ _ E3) in Hrun; missing_map Hrun ].
  all: destruct (maps !! "backward_zt_prime") as [a4|] eqn:E4;
    [ rewrite (write_map_some _ _ _ _ _ E4) in Hrun
    | rewrite (write_map_none _ _ _ _ _ E4) in Hrun; missing_map Hrun ].
  all: finish_run Hrun; split_all; try solve_get.
  all: try (intros _; split_all; solve_get).
  all: intros _ m1 m2 m3 m4 [= <-] [= <-] [= <-] [= <-];
    split_all; [reflexivity|solve_get..].
Qed.

(** ** Theorems about make_maps *)




(** C2 (the code departs from the claim).  On a grid with a single
    toroidal plane, make_maps with progress reporting enabled does not
    report progress 0: [float(0)/float(ny-1)] divides by zero, the call
    raises [ZeroDivisionError] before the progress bar is invoked, and no
    maps are returned. *)
Theorem make_maps_single_plane_raises g field kwargs w :
  ny g = 1%nat ->
  make_maps g field false kwargs w = (w, Raise ZeroDivisionError).
Proof.
  intros Hny. destruct g; simpl in Hny; subst. reflexivity.
Qed.

(** C3.  If the tracer raises on some plane [j < ny], forwards or
    backwards, then make_maps raises: it returns no maps value, whatever
    the earlier planes produced, and it leaves every file and the I/O
    history as they were (no grid file is written).  With progress
    reporting off, when the planes before [j] trace and the forward trace
    of plane [j] raises [e], the exception that make_maps raises is [e]. *)
Theorem make_maps_tracer_failure g field quiet kwargs w j y e :
  (j < ny g)%nat ->
  yarray g !! j = Some y ->
  follow_field_lines field
    (flatten (fst (meshgrid (xarray g) (zarray g))))
    (flatten (snd (meshgrid (xarray g) (zarray g)))) (y, delta_y g) = Raise e
  \/ follow_field_lines field
    (flatten (fst (meshgrid (xarray g) (zarray g))))
    (flatten (snd (meshgrid (xarray g) (zarray g)))) (y, - delta_y g) = Raise e ->
  is_Raise (snd (make_maps g field quiet kwargs w))
  /\ same_disk w (fst (make_maps g field quiet kwargs w))
  /\ (quiet = true ->
      (forall j', (j' < j)%nat ->
         is_Ok (trace_plane g field
                  (flatten (fst (meshgrid (xarray g) (zarray g))))
                  (flatten (snd (meshgrid (xarray g) (zarray g))))
                  j' (delta_y g))
         /\ is_Ok (trace_plane g field
                     (flatten (fst (meshgrid (xarray g) (zarray g))))
                     (flatten (snd (meshgrid (xarray g) (zarray g))))
                     j' (- delta_y g))) ->
      follow_field_lines field
        (flatten (fst (meshgrid (xarray g) (zarray g))))
        (flatten (snd (meshgrid (xarray g) (zarray g)))) (y, delta_y g)
      = Raise e ->
      snd (make_maps g field quiet kwargs w) = Raise e).
Proof.
  intros Hj Hy Hfail. split; [|split; [apply make_maps_world|]].
  - destruct (snd (make_maps g field quiet kwargs w)) as [m|e'] eqn:Hrun;
      [|exact I].
    apply make_maps_result in Hrun. unfold traced_maps, meshgrid in Hrun.
    unfold mbind, result_bind in Hrun.
    destruct (for_pure _ _ _) as [st|e'] eqn:Hloop; [|discriminate].
    assert (Hin : j ∈ range (ny g)).
    { apply list_elem_of_In, in_seq. lia. }
    destruct (for_pure_planes_ok _ _ _ _ _ _ _ j Hloop Hin) as [Hf Hb].
    simpl in Hfail.
    destruct Hfail as [He|He];
      rewrite (trace_plane_raise _ _ _ _ _ _ _ _ Hy He) in *; contradiction.
  - intros -> Hbefore He. rewrite make_maps_quiet. simpl.
    unfold traced_maps, meshgrid. simpl in Hbefore, He.
    unfold range.
    replace (ny g) with (j + S (ny g - S j))%nat by lia.
    rewrite seq_app, for_pure_app. simpl.
    pose proof (for_pure_trace_both_ok g field
      (map (fun x => map (fun _ => x) (zarray g)) (xarray g))
      (map (fun _ => zarray g) (xarray g)) (seq 0 j)
      (np_zeros3 (nx g) (j + S (ny g - S j)) (nz g),
       np_zeros3 (nx g) (j + S (ny g - S j)) (nz g),
       np_zeros3 (nx g) (j + S (ny g - S j)) (nz g),
       np_zeros3 (nx g) (j + S (ny g - S j)) (nz g))) as Hpre.
    unfold mbind at 1 2, result_bind at 1 2.
    destruct (for_pure (seq 0 j) _ _) as [[[[fx fz] bx] bz]|e'].
    + unfold mbind at 1, result_bind at 1. unfold trace_both at 1.
      rewrite (trace_plane_raise _ _ _ _ _ _ _ _ Hy He). reflexivity.
    + exfalso. apply Hpre. intros j' Hj'.
      apply list_elem_of_In, in_seq in Hj'. apply Hbefore. lia.
Qed.


(** ** Theorems about write_maps *)

Lemma entries3_inv st i j k v1 v2 v3 :
  entries3 st i j k = Some (v1, v2, v3) ->
  let '(Bxy, totalbx, totalbz) := st in
  get3 Bxy i j k = Some v1 /\ get3 totalbx i j k = Some v2
  /\ get3 totalbz i j k = Some v3.
Proof.
  destruct st as [[Bxy tbx] tbz]. unfold entries3.
  destruct (get3 Bxy i j k); [|discriminate].
  destruct (get3 tbx i j k); [|discriminate].
  destruct (get3 tbz i j k); [|discriminate].
  simpl. intros [= -> -> ->]. auto.
Qed.

Lemma slice_k0_entry (a : arr3) i j v :
  get3 a i j 0 = Some v ->
  get2 (map (map (fun r => nth 0 r 0)) a) i j = Some v.
Proof.
  unfold get3, get2. rewrite lookup_map.
  destruct (a !! i) as [pl|]; [|discriminate]. simpl.
  rewrite lookup_map. destruct (pl !! j) as [r|]; [|discriminate]. simpl.
  destruct r as [|v0 r]; [discriminate|]. simpl. intros [= ->]. reflexivity.
Qed.

Lemma slice_k0_shape n0 n1 (a : arr3) :
  shape2 n0 n1 a ->
  length (map (map (fun r => nth 0 r 0)) a) = n0
  /\ Forall (fun r => length r = n1) (map (map (fun r => nth 0 r 0)) a).
Proof.
  intros [Hlen Hrows]. split; [by rewrite length_map|].
  apply Forall_forall. intros r Hr.
  apply list_elem_of_In, in_map_iff in Hr as (pl & <- & Hpl).
  rewrite length_map.
  apply (proj1 (Forall_forall _ _) Hrows). apply list_elem_of_In, Hpl.
Qed.

Lemma g_22_shape n0 n1 c :
  length (add_scalar2 (np_zeros2 n0 n1) c) = n0
  /\ Forall (fun r => length r = n1) (add_scalar2 (np_zeros2 n0 n1) c).
Proof.
  unfold add_scalar2, np_zeros2. split.
  - by rewrite length_map, length_replicate.
  - apply Forall_forall. intros r Hr.
    apply list_elem_of_In, in_map_iff in Hr as (row & <- & Hrow).
    apply list_elem_of_In, elem_of_replicate in Hrow as [-> _].
    by rewrite length_map, length_replicate.
Qed.

Lemma g_22_entry n0 n1 c i j :
  (i < n0)%nat -> (j < n1)%nat ->
  get2 (add_scalar2 (np_zeros2 n0 n1) c) i j = Some (0 + c).
Proof.
  intros Hi Hj. unfold get2, add_scalar2, np_zeros2.
  rewrite lookup_map, lookup_replicate_2 by exact Hi. simpl.
  rewrite lookup_map, lookup_replicate_2 by exact Hj. reflexivity.
Qed.

(** C6.  On a well-formed grid with a non-zero major radius, write_maps
    writes both separatrix markers [ixseps1] and [ixseps2] to the grid
    file, both equal to [nx + 1], for every field, maps dictionary and
    legacy flag (also when a later step of the call raises). *)
Theorem write_maps_ixseps g field maps gridfile legacy w :
  wf_grid g -> ~ Rmaj g ^ 2 == 0 ->
  file_get gridfile "ixseps1"
    (fst (write_maps g field maps gridfile legacy w))
  = Some (VInt (Z.of_nat (nx g) + 1))
  /\ file_get gridfile "ixseps2"
       (fst (write_maps g field maps gridfile legacy w))
     = Some (VInt (Z.of_nat (nx g) + 1)).
Proof.
  intros Hwf HR.
  destruct (write_maps_outcome g field maps gridfile legacy w _ _ Hwf HR
              (surjective_pairing _))
    as (Bxy & tbx & tbz & _ & _ & _ & _ & _ & _ & H1 & H2 & _).
  split; assumption.
Qed.


(** C7.  On a well-formed grid with a non-zero major radius, write_maps
    writes [g_22] of shape (nx, ny) with every entry equal to
    [1 / Rmaj^2]; and when [nz > 0] it writes [Bxy] of shape (nx, ny) whose
    entry (i, j) is [sqrt(Bx^2 + Bz^2)] at [(x_i, z_0, y_j)], the first z
    coordinate, while [bx] and [bz] hold the raw components at every
    (i, j, k). *)
Theorem write_maps_field_arrays g field maps gridfile legacy w :
  wf_grid g -> ~ Rmaj g ^ 2 == 0 ->
  let w' := fst (write_maps g field maps gridfile legacy w) in
  (exists g_22,
     file_get gridfile "g_22" w' = Some (VArr2 g_22)
     /\ length g_22 = nx g /\ Forall (fun r => length r = ny g) g_22
     /\ forall i j, (i < nx g)%nat -> (j < ny g)%nat ->
          exists v, get2 g_22 i j = Some v /\ v == 1 / Rmaj g ^ 2)
  /\ ((0 < nz g)%nat ->
      exists Bxy bx bz,
        file_get gridfile "Bxy" w' = Some (VArr2 Bxy)
        /\ file_get gridfile "bx" w' = Some (VArr3 bx)
        /\ file_get gridfile "bz" w' = Some (VArr3 bz)
        /\ length Bxy = nx g /\ Forall (fun r => length r = ny g) Bxy
        /\ (forall i j x y z0,
              xarray g !! i = Some x -> yarray g !! j = Some y ->
              zarray g !! 0%nat = Some z0 ->
              get2 Bxy i j
              = Some (np_sqrt (Bxfunc field x z0 y ^ 2
                               + Bzfunc field x z0 y ^ 2)))
        /\ (forall i j k x y z,
              xarray g !! i = Some x -> yarray g !! j = Some y ->
              zarray g !! k = Some z ->
              get3 bx i j k = Some (Bxfunc field x z y)
              /\ get3 bz i j k = Some (Bzfunc field x z y))).
Proof.
  intros Hwf HR w'.
  destruct (write_maps_outcome g field maps gridfile legacy w _ _ Hwf HR
              (surjective_pairing _))
    as (Bxy & tbx & tbz & Hs & _ & _ & _ & _ & _ & _ & _ & Hg & Harr & _).
  split.
  - eexists. split; [exact Hg|].
    destruct (g_22_shape (nx g) (ny g) (1 / Rmaj g ^ 2)) as [Hlen Hrows].
    split; [exact Hlen|]. split; [exact Hrows|].
    intros i j Hi Hj. eexists. split; [apply g_22_entry; assumption|].
    apply Qplus_0_l.
  - intros Hnz. destruct (Harr Hnz) as (HBxy & Hbx & Hbz).
    destruct (sample_field_spec g field Hwf) as (st & Hs' & Hshape & Hent).
    rewrite Hs in Hs'. injection Hs' as <-.
    destruct Hshape as (S1 & S2 & S3).
    exists (map (map (fun r => nth 0 r 0)) Bxy), tbx, tbz.
    split; [exact HBxy|]. split; [exact Hbx|]. split; [exact Hbz|].
    destruct (slice_k0_shape _ _ _ S1) as [Hlen Hrows].
    split; [exact Hlen|]. split; [exact Hrows|].
    assert (Hpt : forall i j k x y z,
      xarray g !! i = Some x -> yarray g !! j = Some y ->
      zarray g !! k = Some z ->
      get3 Bxy i j k
        = Some (np_sqrt (Bxfunc field x z y ^ 2 + Bzfunc field x z y ^ 2))
      /\ get3 tbx i j k = Some (Bxfunc field x z y)
      /\ get3 tbz i j k = Some (Bzfunc field x z y)).
    { intros i j k x y z Hx Hy Hz.
      pose proof (lookup_lt_Some _ _ _ Hx) as Hi.
      pose proof (lookup_lt_Some _ _ _ Hy) as Hj.
      pose proof (lookup_lt_Some _ _ _ Hz) as Hk.
      destruct Hwf as [Lx Ly Lz _ _ _].
      destruct (Hent i j k ltac:(lia) ltac:(lia) ltac:(lia)) as [_ Hv].
      specialize (Hv I). unfold point_values in Hv.
      rewrite Hx, Hz, Hy in Hv.
      exact (entries3_inv (Bxy, tbx, tbz) i j k _ _ _ Hv). }
    split.
    + intros i j x y z0 Hx Hy Hz.
      apply slice_k0_entry. exact (proj1 (Hpt i j 0%nat x y z0 Hx Hy Hz)).
    + intros i j k x y z Hx Hy Hz.
      exact (proj2 (Hpt i j k x y z Hx Hy Hz)).
Qed.

(** ** Theorems about fci_to_vtk *)

Lemma run_open {A} path (k : unit -> M (world PS) A) w :
  file_exists path w ->
  (file_open path ≫= k) w = k tt (log_io (EvOpen path) w).
Proof.
  intros [f Hf]. unfold mbind, M_bind, bind, file_open. rewrite Hf.
  reflexivity.
Qed.

Lemma run_read {A} path key (k : option value -> M (world PS) A) w :
  (file_read path key ≫= k) w
  = k (file_get path key w) (log_io (EvRead path key) w).
Proof. reflexivity. Qed.

Lemma file_get_log_io path key ev w :
  file_get path key (log_io ev w) = file_get path key w.
Proof. reflexivity. Qed.

(** C9.  When the visualisation backend is unavailable, fci_to_vtk returns
    at once without raising, for every pair of paths and every scale: the
    world is untouched, so the input file is neither opened nor read and
    nothing is written. *)
Theorem fci_to_vtk_no_backend infile outfile scale w :
  have_evtk = false ->
  fci_to_vtk infile outfile scale w = (w, Ok tt).
Proof. intros Hb. unfold fci_to_vtk. rewrite Hb. reflexivity. Qed.

(** C8 (the code departs from the claim).  With the backend available
    and an input grid file that has no [bx], fci_to_vtk does not derive
    the vector field from the forward maps: [np.ones(bx.shape)] at line 154
    is evaluated on [None] before the test [bx is None], so the call
    raises [AttributeError] after reading [dx], [dy] and [bx]; the forward
    maps are never read and no output is written. *)
Theorem fci_to_vtk_missing_bx infile outfile scale w :
  have_evtk = true ->
  file_exists infile w ->
  file_get infile "bx" w = None ->
  snd (fci_to_vtk infile outfile scale w) = Raise AttributeError
  /\ w_vtk (fst (fci_to_vtk infile outfile scale w)) = w_vtk w
  /\ w_io (fst (fci_to_vtk infile outfile scale w))
     = w_io w ++ [EvOpen infile; EvRead infile "dx"; EvRead infile "dy";
                  EvRead infile "bx"].
Proof.
  intros Hb Hfile Hbx. unfold fci_to_vtk. rewrite Hb. cbn [negb].
  rewrite (run_open _ _ _ Hfile). cbv beta.
  rewrite !run_read. cbv beta.
  rewrite !file_get_log_io, Hbx. cbn [shape_of].
  rewrite run_lift_raise. cbn [fst snd log_io w_vtk w_io].
  split; [reflexivity|]. split; [reflexivity|].
  rewrite <- !app_assoc. reflexivity.
Qed.

(** ** More about make_maps *)


Lemma chunks_rows {A} n0 n1 (l : list A) :
  length l = (n0 * n1)%nat ->
  Forall (fun r => length r = n1) (chunks n0 n1 l).
Proof.
  revert l. induction n0 as [|n IH]; intros l Hl; simpl; constructor.
  - rewrite length_take. simpl in Hl. lia.
  - apply IH. rewrite length_drop. simpl in Hl. lia.
Qed.

Lemma np_zeros3_shape3 n0 n1 n2 : shape3 n0 n1 n2 (np_zeros3 n0 n1 n2).
Proof.
  split; [apply length_replicate|].
  apply Forall_replicate. split; [apply length_replicate|].
  apply Forall_replicate, length_replicate.
Qed.

Lemma set_plane_shape3 n0 n1 n2 j rows a :
  shape3 n0 n1 n2 a -> length rows = n0 ->
  Forall (fun r => length r = n2) rows ->
  shape3 n0 n1 n2 (set_plane j rows a).
Proof.
  intros [Hlen Hplanes] Hr Hrows. unfold set_plane. split.
  - rewrite length_zip_with. lia.
  - apply Forall_lookup. intros i p Hi.
    apply lookup_zip_with_Some in Hi as (pl & row & -> & Hpl & Hrow).
    destruct (Forall_lookup_1 _ _ _ _ Hplanes Hpl) as [Hl Hrs].
    split; [by rewrite length_insert|].
    apply Forall_insert; [exact Hrs|].
    exact (Forall_lookup_1 _ _ _ _ Hrows Hrow).
Qed.

Lemma trace_plane_rows g field xs zs j dy cx cz :
  trace_plane g field xs zs j dy = Ok (cx, cz) ->
  (length cx = nx g /\ Forall (fun r => length r = nz g) cx)
  /\ (length cz = nx g /\ Forall (fun r => length r = nz g) cz).
Proof.
  intros H.
  apply trace_plane_inv in H as (y & coord & _ & _ & Hlen & -> & ->).
  pose proof (chunks_rows (nx g) (nz g) coord Hlen) as Hrows.
  split; (split; [by rewrite length_map, chunks_length|]);
    apply Forall_forall; intros r Hr;
    apply list_elem_of_In, in_map_iff in Hr as (r0 & <- & Hr0);
    rewrite length_map;
    apply (proj1 (Forall_forall _ _) Hrows), list_elem_of_In, Hr0.
Qed.

Lemma for_pure_trace_both_shape3 g field x2d z2d js fx fz bx bz st' :
  shape3 (nx g) (ny g) (nz g) fx -> shape3 (nx g) (ny g) (nz g) fz ->
  shape3 (nx g) (ny g) (nz g) bx -> shape3 (nx g) (ny g) (nz g) bz ->
  for_pure js (trace_both g field x2d z2d) (fx, fz, bx, bz) = Ok st' ->
  let '(fx', fz', bx', bz') := st' in
  shape3 (nx g) (ny g) (nz g) fx' /\ shape3 (nx g) (ny g) (nz g) fz'
  /\ shape3 (nx g) (ny g) (nz g) bx' /\ shape3 (nx g) (ny g) (nz g) bz'.
Proof.
  revert fx fz bx bz.
  induction js as [|j js IH]; intros fx fz bx bz S1 S2 S3 S4 Hloop.
  - injection Hloop as <-. auto.
  - cbn [for_pure] in Hloop. unfold mbind at 1, result_bind in Hloop.
    destruct (trace_both g field x2d z2d j (fx, fz, bx, bz)) as [st1|e]
      eqn:Hstep; [|discriminate].
    unfold trace_both in Hstep. unfold mbind, result_bind in Hstep.
    destruct (trace_plane _ _ _ _ j (delta_y g)) as [[cx cz]|e] eqn:Hf;
      [|discriminate].
    destruct (trace_plane _ _ _ _ j (- delta_y g)) as [[cx' cz']|e] eqn:Hb;
      [|discriminate].
    injection Hstep as <-.
    destruct (trace_plane_rows _ _ _ _ _ _ _ _ Hf) as [[? ?] [? ?]].
    destruct (trace_plane_rows _ _ _ _ _ _ _ _ Hb) as [[? ?] [? ?]].
    refine (IH _ _ _ _ _ _ _ _ Hloop); apply set_plane_shape3; assumption.
Qed.

(** X2.  The dictionary that make_maps returns holds exactly the four
    keys [forward_xt_prime], [forward_zt_prime], [backward_xt_prime] and
    [backward_zt_prime], and each of them is an array of shape
    (nx, ny, nz). *)
Theorem make_maps_shape g field quiet kwargs w m :
  snd (make_maps g field quiet kwargs w) = Ok m ->
  dom m = list_to_set map_keys
  /\ forall key a, m !! key = Some a -> shape3 (nx g) (ny g) (nz g) a.
Proof.
  intros Hrun.
  apply make_maps_result, traced_maps_inv in Hrun as (st & -> & Hloop).
  apply for_pure_trace_both_shape3 in Hloop; try apply np_zeros3_shape3.
  destruct st as [[[fx fz] bx] bz]. destruct Hloop as (S1 & S2 & S3 & S4).
  split.
  - unfold pack_maps, map_keys. rewrite !dom_insert_L, dom_empty_L.
    simpl. set_solver.
  - intros key a. unfold pack_maps.
    rewrite !lookup_insert, lookup_empty.
    repeat case_decide; intros [= <-]; assumption.
Qed.

(** X3.  make_maps never touches a file: in every run, whatever it
    returns or raises, the grid files, the exported files and the I/O
    history are as before; and with [quiet] set the whole world is as
    before, the progress bar included. *)
Theorem make_maps_world_effects g field quiet kwargs w :
  same_disk w (fst (make_maps g field quiet kwargs w))
  /\ (quiet = true -> fst (make_maps g field quiet kwargs w) = w).
Proof.
  split; [apply make_maps_world|].
  intros ->. rewrite make_maps_quiet. reflexivity.
Qed.

Lemma for_loop_app {A} (l1 l2 : list nat) (body : nat -> A -> M (world PS) A)
    a w :
  for_loop (l1 ++ l2) body a w
  = (a' ← for_loop l1 body a; for_loop l2 body a') w.
Proof.
  revert a w. induction l1 as [|j l1 IH]; intros a w; [reflexivity|].
  simpl. unfold mbind, M_bind, bind.
  destruct (body j a w) as [w1 [a1|e]]; [|reflexivity].
  rewrite IH. reflexivity.
Qed.

Lemma make_maps_loop g field quiet kwargs w :
  make_maps g field quiet kwargs w
  = (st ← for_loop (range (ny g))
            (make_maps_body g field quiet kwargs
               (fst (meshgrid (xarray g) (zarray g)))
               (snd (meshgrid (xarray g) (zarray g))))
            (np_zeros3 (nx g) (ny g) (nz g), np_zeros3 (nx g) (ny g) (nz g),
             np_zeros3 (nx g) (ny g) (nz g), np_zeros3 (nx g) (ny g) (nz g));
     ret (pack_maps st)) w.
Proof.
  unfold make_maps, meshgrid. unfold mbind, M_bind, bind. simpl.
  destruct (for_loop _ _ _ w) as [w1 [[[[fx fz] bx] bz]|e]]; reflexivity.
Qed.

(** The invocations of the progress bar are always a prefix of the
    fractions of the planes. *)
Lemma for_loop_calls_prefix g field quiet kwargs x2d z2d n s st w :
  exists n',
    (n' <= n)%nat
    /\ w_calls (fst (for_loop (seq s n)
                       (make_maps_body g field quiet kwargs x2d z2d) st w))
       = w_calls w ++ map (fraction_at g) (seq s n').
Proof.
  revert s st w. induction n as [|n IH]; intros s st w.
  - exists 0%nat. split; [lia|]. simpl. symmetry. apply app_nil_r.
  - simpl. unfold mbind at 1, M_bind, bind.
    rewrite make_maps_body_eq. unfold mbind at 1, M_bind, bind, lift.
    assert (Hrep :
      (fst (report_progress g quiet kwargs s w) = w
       /\ (snd (report_progress g quiet kwargs s w) = Ok tt -> quiet = true))
      \/ w_calls (fst (report_progress g quiet kwargs s w))
         = w_calls w ++ [fraction_at g s]).
    { unfold report_progress. destruct quiet; simpl; [left; auto|].
      unfold mbind, M_bind, bind, lift, float_div.
      destruct (Z.of_nat (ny g) - 1 =? 0)%Z; [left; split; [reflexivity|]|].
      - discriminate.
      - right. unfold call_progress.
        destruct (update_progress _ _ _). reflexivity. }
    destruct (report_progress g quiet kwargs s w) as [w1 [[]|e]] eqn:Hr;
      simpl in Hrep.
    + destruct (trace_both g field x2d z2d s st) as [st1|e]; simpl.
      * destruct (IH (S s) st1 w1) as (n' & Hn' & Hcalls).
        destruct Hrep as [[-> Hq]|Hw1].
        -- specialize (Hq eq_refl). subst quiet.
           rewrite for_loop_quiet. exists 0%nat. split; [lia|].
           simpl. symmetry. apply app_nil_r.
        -- exists (S n'). split; [lia|].
           rewrite Hcalls, Hw1. simpl. rewrite <- app_assoc. reflexivity.
      * destruct Hrep as [[-> _]|Hw1].
        -- exists 0%nat. split; [lia|]. simpl. symmetry. apply app_nil_r.
        -- exists 1%nat. split; [lia|]. exact Hw1.
    + simpl. destruct Hrep as [[-> _]|Hw1].
      * exists 0%nat. split; [lia|]. simpl. symmetry. apply app_nil_r.
      * exists 1%nat. split; [lia|]. exact Hw1.
Qed.

(** X4.  In every run of make_maps, whatever it returns or raises, the
    progress bar has been invoked with the fractions [j/(ny-1)] of the
    first [n] planes, in order, for some [n <= ny], and with nothing
    else. *)
Theorem make_maps_calls_prefix g field quiet kwargs w :
  exists n,
    (n <= ny g)%nat
    /\ w_calls (fst (make_maps g field quiet kwargs w))
       = w_calls w
         ++ map (fun j => inject_Z (Z.of_nat j) / inject_Z (Z.of_nat (ny g) - 1))
                (seq 0 n).
Proof.
  destruct (for_loop_calls_prefix g field quiet kwargs
              (fst (meshgrid (xarray g) (zarray g)))
              (snd (meshgrid (xarray g) (zarray g))) (ny g) 0
              (np_zeros3 (nx g) (ny g) (nz g), np_zeros3 (nx g) (ny g) (nz g),
               np_zeros3 (nx g) (ny g) (nz g), np_zeros3 (nx g) (ny g) (nz g))
              w) as (n & Hn & Hcalls).
  exists n. split; [exact Hn|].
  rewrite make_maps_loop. unfold mbind, M_bind, bind, range.
  destruct (for_loop _ _ _ w) as [w1 [st|e]]; exact Hcalls.
Qed.

Lemma seq_split_at n j :
  (j < n)%nat -> seq 0 n = seq 0 j ++ j :: seq (S j) (n - S j).
Proof.
  intros Hj. replace n with (j + S (n - S j))%nat at 1 by lia.
  rewrite seq_app. reflexivity.
Qed.

Lemma trace_both_fails g field j e st :
  plane_fails g field j e ->
  trace_both g field (fst (meshgrid (xarray g) (zarray g)))
    (snd (meshgrid (xarray g) (zarray g))) j st = Raise e.
Proof.
  destruct st as [[[fx fz] bx] bz]. unfold plane_fails, trace_both.
  unfold x_coords, z_coords, mbind, result_bind.
  intros [->|[Hok ->]]; [reflexivity|].
  destruct (trace_plane _ _ _ _ j (delta_y g)) as [[cx cz]|e'];
    [reflexivity|contradiction].
Qed.

Lemma for_pure_prefix_ok g field j st :
  (forall j', (j' < j)%nat -> plane_traces g field j') ->
  exists st1,
    for_pure (seq 0 j)
      (trace_both g field (fst (meshgrid (xarray g) (zarray g)))
         (snd (meshgrid (xarray g) (zarray g)))) st = Ok st1.
Proof.
  intros Hbefore.
  pose proof (for_pure_trace_both_ok g field
    (fst (meshgrid (xarray g) (zarray g)))
    (snd (meshgrid (xarray g) (zarray g))) (seq 0 j) st) as Hok.
  destruct (for_pure _ _ _) as [st1|e]; [eauto|].
  exfalso. apply Hok. intros j' Hj'.
  apply list_elem_of_In, in_seq in Hj'. apply (Hbefore j'). lia.
Qed.

(** The progress bar on the planes of a list, when it does not raise
    there. *)
Lemma for_loop_calls_on g field kwargs x2d z2d js st st' w :
  ny g ≠ 1%nat ->
  (forall j s, j ∈ js ->
     snd (update_progress (fraction_at g j) kwargs s) = Ok tt) ->
  for_pure js (trace_both g field x2d z2d) st = Ok st' ->
  exists w',
    for_loop js (make_maps_body g field false kwargs x2d z2d) st w = (w', Ok st')
    /\ w_calls w' = w_calls w ++ map (fraction_at g) js
    /\ same_disk w w'.
Proof.
  intros Hny Htot. revert st w.
  induction js as [|j js IH]; intros st w Hpure.
  - injection Hpure as ->. exists w. split; [reflexivity|].
    split; [symmetry; apply app_nil_r|done].
  - cbn [for_pure] in Hpure. unfold mbind, result_bind in Hpure.
    destruct (trace_both g field x2d z2d j st) as [st1|e] eqn:Hstep;
      [|discriminate].
    cbn [for_loop]. unfold mbind at 1, M_bind, bind.
    rewrite make_maps_body_eq.
    unfold mbind at 1, M_bind, bind, lift, report_progress; simpl.
    unfold mbind at 1, M_bind, bind, lift, float_div.
    destruct (Z.eqb_spec (Z.of_nat (ny g) - 1) 0) as [Hz|_]; [lia|].
    unfold call_progress.
    assert (Hjin : j ∈ j :: js) by (apply elem_of_cons; auto).
    pose proof (Htot j (w_progress w) Hjin) as Hok.
    unfold fraction_at in Hok.
    destruct (update_progress _ kwargs (w_progress w)) as [s r].
    simpl in Hok; subst r. rewrite Hstep.
    assert (Htot' : forall j' s', j' ∈ js ->
              snd (update_progress (fraction_at g j') kwargs s') = Ok tt)
      by (intros j' s' Hj'; apply Htot, elem_of_cons; auto).
    destruct (IH Htot' st1 (World s
      (w_calls w ++ [inject_Z (Z.of_nat j) / inject_Z (Z.of_nat (ny g) - 1)])
      (w_files w) (w_vtk w) (w_io w)) Hpure) as (w' & Hrun & Hcalls & Hdisk).
    exists w'. split; [exact Hrun|]. split.
    + rewrite Hcalls. simpl. rewrite <- app_assoc. reflexivity.
    + exact Hdisk.
Qed.

(** X5.  With progress reporting on, if the progress bar raises [e] when
    it is given the fraction of plane [j], not having raised on the planes
    before, which all trace, then make_maps raises [e] and returns no
    maps; the progress bar has been invoked for the planes [0 .. j] and no
    further. *)
Theorem make_maps_progress_exception g field kwargs w j e :
  (1 < ny g)%nat -> (j < ny g)%nat ->
  (forall j' s, (j' < j)%nat ->
     snd (update_progress (fraction_at g j') kwargs s) = Ok tt) ->
  (forall j', (j' < j)%nat -> plane_traces g field j') ->
  (forall s, snd (update_progress (fraction_at g j) kwargs s) = Raise e) ->
  snd (make_maps g field false kwargs w) = Raise e
  /\ w_calls (fst (make_maps g field false kwargs w))
     = w_calls w ++ map (fraction_at g) (seq 0 (S j)).
Proof.
  intros Hny Hj Hprog Hplanes Hraise.
  cut (exists w', make_maps g field false kwargs w = (w', Raise e)
         /\ w_calls w' = w_calls w ++ map (fraction_at g) (seq 0 (S j))).
  { intros (w' & -> & Hc). split; [reflexivity|exact Hc]. }
  rewrite make_maps_loop. unfold range.
  rewrite (seq_split_at (ny g) j Hj).
  destruct (for_pure_prefix_ok g field j
    (np_zeros3 (nx g) (ny g) (nz g), np_zeros3 (nx g) (ny g) (nz g),
     np_zeros3 (nx g) (ny g) (nz g), np_zeros3 (nx g) (ny g) (nz g)) Hplanes)
    as (st1 & Hpre).
  assert (Hne : ny g ≠ 1%nat) by lia.
  assert (Hon : forall j' s, j' ∈ seq 0 j ->
            snd (update_progress (fraction_at g j') kwargs s) = Ok tt).
  { intros j' s' Hj'. apply Hprog.
    apply list_elem_of_In, in_seq in Hj'. lia. }
  destruct (for_loop_calls_on g field kwargs _ _ _ _ _ w Hne Hon Hpre)
    as (w1 & Hrun & Hcalls & _).
  unfold mbind at 1, M_bind at 1, bind at 1.
  rewrite for_loop_app. unfold mbind at 1, M_bind at 1, bind at 1.
  rewrite Hrun. cbn [for_loop]. unfold mbind at 1, M_bind at 1, bind at 1.
  rewrite make_maps_body_eq.
  unfold mbind at 1, M_bind at 1, bind at 1, report_progress. cbn [negb].
  unfold mbind at 1, M_bind at 1, bind at 1, lift at 1, float_div.
  destruct (Z.eqb_spec (Z.of_nat (ny g) - 1) 0) as [Hz|_]; [lia|].
  unfold call_progress.
  pose proof (Hraise (w_progress w1)) as Hr. unfold fraction_at in Hr.
  destruct (update_progress _ kwargs (w_progress w1)) as [s r].
  simpl in Hr; subst r. eexists. split; [reflexivity|]. cbn [w_calls].
  rewrite Hcalls, seq_S, map_app, <- app_assoc. reflexivity.
Qed.

(** X6.  With progress reporting on and a progress bar that does not
    raise on the planes [0 .. j], if the planes before [j] trace and plane
    [j] stops with [e], then make_maps raises [e]; progress has been
    reported for the planes [0 .. j], the failing one included, and for no
    later plane. *)
Theorem make_maps_calls_until_failure g field kwargs w j e :
  (1 < ny g)%nat -> (j < ny g)%nat ->
  (forall j' s, (j' <= j)%nat ->
     snd (update_progress (fraction_at g j') kwargs s) = Ok tt) ->
  (forall j', (j' < j)%nat -> plane_traces g field j') ->
  plane_fails g field j e ->
  snd (make_maps g field false kwargs w) = Raise e
  /\ w_calls (fst (make_maps g field false kwargs w))
     = w_calls w ++ map (fraction_at g) (seq 0 (S j)).
Proof.
  intros Hny Hj Hprog Hplanes Hfail.
  cut (exists w', make_maps g field false kwargs w = (w', Raise e)
         /\ w_calls w' = w_calls w ++ map (fraction_at g) (seq 0 (S j))).
  { intros (w' & -> & Hc). split; [reflexivity|exact Hc]. }
  rewrite make_maps_loop. unfold range.
  rewrite (seq_split_at (ny g) j Hj).
  destruct (for_pure_prefix_ok g field j
    (np_zeros3 (nx g) (ny g) (nz g), np_zeros3 (nx g) (ny g) (nz g),
     np_zeros3 (nx g) (ny g) (nz g), np_zeros3 (nx g) (ny g) (nz g)) Hplanes)
    as (st1 & Hpre).
  assert (Hne : ny g ≠ 1%nat) by lia.
  assert (Hon : forall j' s, j' ∈ seq 0 j ->
            snd (update_progress (fraction_at g j') kwargs s) = Ok tt).
  { intros j' s' Hj'. apply Hprog.
    apply list_elem_of_In, in_seq in Hj'. lia. }
  destruct (for_loop_calls_on g field kwargs _ _ _ _ _ w Hne Hon Hpre)
    as (w1 & Hrun & Hcalls & _).
  unfold mbind at 1, M_bind at 1, bind at 1.
  rewrite for_loop_app. unfold mbind at 1, M_bind at 1, bind at 1.
  rewrite Hrun. cbn [for_loop]. unfold mbind at 1, M_bind at 1, bind at 1.
  rewrite make_maps_body_eq.
  unfold mbind at 1, M_bind at 1, bind at 1, report_progress. cbn [negb].
  unfold mbind at 1, M_bind at 1, bind at 1, lift at 1, float_div.
  destruct (Z.eqb_spec (Z.of_nat (ny g) - 1) 0) as [Hz|_]; [lia|].
  unfold call_progress.
  pose proof (Hprog j (w_progress w1) (Nat.le_refl j)) as Hr.
  unfold fraction_at in Hr.
  destruct (update_progress _ kwargs (w_progress w1)) as [s r].
  simpl in Hr; subst r. unfold lift.
  rewrite (trace_both_fails g field j e st1 Hfail).
  eexists. split; [reflexivity|]. cbn [w_calls].
  rewrite Hcalls, seq_S, map_app, <- app_assoc. reflexivity.
Qed.

Lemma make_maps_quiet_first_failure g field kwargs w j e :
  (j < ny g)%nat ->
  (forall j', (j' < j)%nat -> plane_traces g field j') ->
  plane_fails g field j e ->
  make_maps g field true kwargs w = (w, Raise e).
Proof.
  intros Hj Hplanes Hfail. rewrite make_maps_quiet.
  unfold traced_maps, meshgrid, range. rewrite (seq_split_at (ny g) j Hj).
  rewrite for_pure_app.
  destruct (for_pure_prefix_ok g field j
    (np_zeros3 (nx g) (ny g) (nz g), np_zeros3 (nx g) (ny g) (nz g),
     np_zeros3 (nx g) (ny g) (nz g), np_zeros3 (nx g) (ny g) (nz g)) Hplanes)
    as (st1 & Hpre).
  simpl in Hpre. rewrite Hpre. cbn [for_pure].
  unfold mbind at 1 2 3, result_bind at 1 2 3.
  pose proof (trace_both_fails g field j e st1 Hfail) as Hstep.
  simpl in Hstep. rewrite Hstep. reflexivity.
Qed.



(** ** More about write_maps *)

(** X9.  On a well-formed grid with a non-zero major radius, write_maps
    stores the dimensions and the steps of the grid: [nx], [ny], [dx] and
    [dy] hold [grid.nx], [grid.ny], [grid.delta_x] and [grid.delta_y],
    also when a later step of the call raises. *)
Theorem write_maps_scalars g field maps gridfile legacy w :
  wf_grid g -> ~ Rmaj g ^ 2 == 0 ->
  let w' := fst (write_maps g field maps gridfile legacy w) in
  file_get gridfile "nx" w' = Some (VInt (Z.of_nat (nx g)))
  /\ file_get gridfile "ny" w' = Some (VInt (Z.of_nat (ny g)))
  /\ file_get gridfile "dx" w' = Some (VFloat (delta_x g))
  /\ file_get gridfile "dy" w' = Some (VFloat (delta_y g)).
Proof.
  intros Hwf HR w'.
  destruct (write_maps_outcome g field maps gridfile legacy w _ _ Hwf HR
              (surjective_pairing _))
    as (Bxy & tbx & tbz & _ & H1 & H2 & _ & H4 & H5 & _).
  auto.
Qed.

Ltac solve_absent :=
  cbn [fst snd];
  repeat (rewrite file_get_write_ne by congruence);
  apply file_get_create.

Lemma write_maps_other_keys g field maps gridfile legacy w key :
  wf_grid g -> ~ Rmaj g ^ 2 == 0 ->
  key ∉ grid_file_keys ->
  file_get gridfile key (fst (write_maps g field maps gridfile legacy w))
  = None.
Proof.
  intros Hwf HR Hkey.
  unfold grid_file_keys, map_keys in Hkey. cbn [app] in Hkey.
  repeat (apply not_elem_of_cons in Hkey as [? Hkey]).
  destruct (write_maps g field maps gridfile legacy w) as [w' r] eqn:Hrun.
  destruct (sample_field_spec g field Hwf) as ([[Bxy tbx] tbz] & Hs & _).
  unfold write_maps in Hrun.
  rewrite Hs, (float_recip_ok _ HR) in Hrun. cbv beta iota in Hrun.
  unfold slice_k0 in Hrun.
  destruct legacy; cbn [negb] in Hrun; repeat step_io_in Hrun.
  all: destruct (Nat.eqb_spec (nz g) 0) as [Hz|Hz]; repeat step_io_in Hrun.
  1, 3: finish_run Hrun; solve_absent.
  all: destruct (maps !! "forward_xt_prime") as [a1|] eqn:E1;
    [ rewrite (run_write_map_some _ _ _ _ _ _ _ E1) in Hrun
    | rewrite (run_write_map_none _ _ _ _ _ _ E1) in Hrun;
      finish_run Hrun; solve_absent ].
  all: destruct (maps !! "forward_zt_prime") as [a2|] eqn:E2;
    [ rewrite (run_write_map_some _ _ _ _ _ _ _ E2) in Hrun
    | rewrite (run_write_map_none _ _ _ _ _ _ E2) in Hrun;
      finish_run Hrun; solve_absent ].
  all: destruct (maps !! "backward_xt_prime") as [a3|] eqn:E3;
    [ rewrite (run_write_map_some _ _ _ _ _ _ _ E3) in Hrun
    | rewrite (run_write_map_none _ _ _ _ _ _ E3) in Hrun;
      finish_run Hrun; solve_absent ].
  all: destruct (maps !! "backward_zt_prime") as [a4|] eqn:E4;
    [ rewrite (write_map_some _ _ _ _ _ E4) in Hrun
    | rewrite (write_map_none _ _ _ _ _ E4) in Hrun;
      finish_run Hrun; solve_absent ].
  all: finish_run Hrun; solve_absent.
Qed.

(** X10.  A complete run of write_maps leaves in the grid file exactly
    the keys [nx], [ny], [dx], [dy], [ixseps1], [ixseps2], [g_22], [Bxy],
    [bx], [bz] and the four maps, with [nz] as well unless [legacy] is
    set: the file is created anew, so nothing that an older file of that
    name held under another key survives. *)
Theorem write_maps_key_set g field maps gridfile legacy w m1 m2 m3 m4 key :
  wf_grid g -> ~ Rmaj g ^ 2 == 0 -> (0 < nz g)%nat ->
  maps !! "forward_xt_prime" = Some m1 ->
  maps !! "forward_zt_prime" = Some m2 ->
  maps !! "backward_xt_prime" = Some m3 ->
  maps !! "backward_zt_prime" = Some m4 ->
  is_Some (file_get gridfile key
             (fst (write_maps g field maps gridfile legacy w)))
  <-> key ∈ grid_file_keys /\ (legacy = true -> key ≠ "nz").
Proof.
  intros Hwf HR Hnz E1 E2 E3 E4.
  destruct (write_maps_outcome g field maps gridfile legacy w _ _ Hwf HR
              (surjective_pairing _))
    as (Bxy & tbx & tbz & _ & K1 & K2 & K3 & K4 & K5 & K6 & K7 & K8
        & Harr & Hmaps).
  destruct (Harr Hnz) as (K9 & K10 & K11).
  destruct (Hmaps Hnz m1 m2 m3 m4 E1 E2 E3 E4) as (_ & K12 & K13 & K14 & K15).
  split.
  - intros Hsome.
    destruct (decide (key ∈ grid_file_keys)) as [Hin|Hout].
    + split; [exact Hin|]. intros -> ->. rewrite K3 in Hsome.
      destruct Hsome; discriminate.
    + rewrite (write_maps_other_keys g field maps gridfile legacy w key
                 Hwf HR Hout) in Hsome.
      destruct Hsome; discriminate.
  - intros [Hin Hleg]. unfold grid_file_keys, map_keys in Hin.
    cbn [app] in Hin.
    repeat (apply elem_of_cons in Hin as [->|Hin]); try (eauto; fail).
    + rewrite K3. destruct legacy; [exfalso; by apply Hleg|eauto].
    + inversion Hin.
Qed.

Lemma frame_refl path w : frame path w w.
Proof. unfold frame. auto. Qed.

Lemma frame_trans path w1 w2 w3 :
  frame path w1 w2 -> frame path w2 w3 -> frame path w1 w3.
Proof.
  intros (A1 & A2 & A3 & A4) (B1 & B2 & B3 & B4).
  split; [congruence|]. split; [congruence|]. split; [congruence|].
  intros p Hp. rewrite B4, A4 by exact Hp. reflexivity.
Qed.

Lemma frames_bind {A B} path (c : M (world PS) A) (k : A -> M (world PS) B) :
  frames path c -> (forall a, frames path (k a)) -> frames path (c ≫= k).
Proof.
  intros Hc Hk w. unfold mbind, M_bind, bind.
  specialize (Hc w). destruct (c w) as [w1 [a|e]]; simpl in *; [|exact Hc].
  exact (frame_trans _ _ _ _ Hc (Hk a w1)).
Qed.

Lemma frames_lift {A} path (r : result A) : frames path (lift r).
Proof. intros w. apply frame_refl. Qed.

Lemma frames_ret {A} path (a : A) : frames path (ret a).
Proof. intros w. apply frame_refl. Qed.

Lemma frames_create path : frames path (file_create path).
Proof.
  intros w. unfold frame. simpl. repeat split.
  intros p Hp. apply lookup_insert_ne. congruence.
Qed.

Lemma frames_write path key v : frames path (file_write path key v).
Proof.
  intros w. unfold frame. simpl. repeat split.
  intros p Hp. apply lookup_alter_ne. congruence.
Qed.

Lemma frames_write_map path maps legacy key :
  frames path (write_map maps path legacy key).
Proof.
  unfold write_map. apply frames_bind; [apply frames_lift|].
  intros m. apply frames_write.
Qed.

(** X11.  Every run of write_maps, complete or not, leaves the progress
    bar, the exported files and every grid file other than [gridfile] as
    they were. *)
Theorem write_maps_frame g field maps gridfile legacy w :
  frame gridfile w (fst (write_maps g field maps gridfile legacy w)).
Proof.
  revert w. change (frames gridfile (write_maps g field maps gridfile legacy)).
  unfold write_maps.
  apply frames_bind; [apply frames_lift|intros inv].
  apply frames_bind; [apply frames_lift|intros [[Bxy tbx] tbz]].
  apply frames_bind; [apply frames_create|intros _].
  do 2 (apply frames_bind; [apply frames_write|intros _]).
  apply frames_bind;
    [destruct legacy; [apply frames_ret|apply frames_write]|intros _].
  do 5 (apply frames_bind; [apply frames_write|intros _]).
  apply frames_bind; [apply frames_lift|intros Bxy0].
  do 3 (apply frames_bind; [apply frames_write|intros _]).
  do 3 (apply frames_bind; [apply frames_write_map|intros _]).
  apply frames_write_map.
Qed.

(** X12.  With a major radius whose square is zero, [1./grid.Rmaj**2]
    raises [ZeroDivisionError] before the file is opened: nothing is
    created or written and the world is as before. *)
Theorem write_maps_zero_radius g field maps gridfile legacy w :
  Rmaj g ^ 2 == 0 ->
  write_maps g field maps gridfile legacy w = (w, Raise ZeroDivisionError).
Proof.
  intros HR. unfold write_maps, float_recip.
  rewrite (proj2 (Qeq_bool_iff _ _) HR). reflexivity.
Qed.

Lemma for_pure_raise_only {A} (P : exn -> Prop) (body : nat -> A -> result A)
    js a e :
  (forall j a e, body j a = Raise e -> P e) ->
  for_pure js body a = Raise e -> P e.
Proof.
  intros Hbody. revert a. induction js as [|j js IH]; intros a; [discriminate|].
  cbn [for_pure]. unfold mbind, result_bind.
  destruct (body j a) as [a1|e1] eqn:Hstep.
  - apply IH.
  - intros [= <-]. exact (Hbody _ _ _ Hstep).
Qed.

Lemma for_pure_ok_each {A} (body : nat -> A -> result A) js a a' j :
  for_pure js body a = Ok a' -> j ∈ js ->
  exists a0 a1, body j a0 = Ok a1.
Proof.
  revert a. induction js as [|j0 js IH]; intros a Hloop Hin; [inversion Hin|].
  cbn [for_pure] in Hloop. unfold mbind, result_bind in Hloop.
  destruct (body j0 a) as [a1|e] eqn:Hstep; [|discriminate].
  apply elem_of_cons in Hin as [->|Hin]; [eauto|exact (IH a1 Hloop Hin)].
Qed.

Lemma sample_point_raise g field i j k st e :
  sample_point g field i j k st = Raise e -> e = IndexError.
Proof.
  destruct st as [[Bxy tbx] tbz]. unfold sample_point, index.
  unfold mbind, result_bind.
  destruct (xarray g !! i); [|by intros [= <-]].
  destruct (zarray g !! k); [|by intros [= <-]].
  destruct (yarray g !! j); [discriminate|by intros [= <-]].
Qed.

Lemma sample_point_ok g field i j k st st' :
  sample_point g field i j k st = Ok st' ->
  is_Some (xarray g !! i) /\ is_Some (zarray g !! k)
  /\ is_Some (yarray g !! j).
Proof.
  destruct st as [[Bxy tbx] tbz]. unfold sample_point, index.
  unfold mbind, result_bind.
  destruct (xarray g !! i); [|discriminate].
  destruct (zarray g !! k); [|discriminate].
  destruct (yarray g !! j); [eauto|discriminate].
Qed.

Lemma sample_field_raise g field e :
  sample_field g field = Raise e -> e = IndexError.
Proof.
  unfold sample_field.
  apply (for_pure_raise_only (fun e => e = IndexError)). intros i st1 e1.
  apply (for_pure_raise_only (fun e => e = IndexError)). intros j st2 e2.
  apply (for_pure_raise_only (fun e => e = IndexError)). intros k st3 e3.
  apply sample_point_raise.
Qed.

Lemma sample_field_ok_points g field st i j k :
  sample_field g field = Ok st ->
  (i < nx g)%nat -> (j < ny g)%nat -> (k < nz g)%nat ->
  is_Some (xarray g !! i) /\ is_Some (zarray g !! k)
  /\ is_Some (yarray g !! j).
Proof.
  unfold sample_field, range. intros Hrun Hi Hj Hk.
  assert (Hin : forall a n, (a < n)%nat -> a ∈ seq 0 n)
    by (intros a n Ha; apply list_elem_of_In, in_seq; lia).
  destruct (for_pure_ok_each _ _ _ _ i Hrun (Hin _ _ Hi)) as (a0 & a1 & H1).
  destruct (for_pure_ok_each _ _ _ _ j H1 (Hin _ _ Hj)) as (b0 & b1 & H2).
  destruct (for_pure_ok_each _ _ _ _ k H2 (Hin _ _ Hk)) as (c0 & c1 & H3).
  exact (sample_point_ok _ _ _ _ _ _ _ H3).
Qed.

(** X13.  If a coordinate sequence is too short for the declared counts,
    so that some grid point (i, j, k) has no x, y or z coordinate,
    write_maps raises [IndexError] while sampling the field, before the
    file is opened: nothing is created or written. *)
Theorem write_maps_short_axis g field maps gridfile legacy w i j k :
  ~ Rmaj g ^ 2 == 0 ->
  (i < nx g)%nat -> (j < ny g)%nat -> (k < nz g)%nat ->
  xarray g !! i = None \/ zarray g !! k = None \/ yarray g !! j = None ->
  write_maps g field maps gridfile legacy w = (w, Raise IndexError).
Proof.
  intros HR Hi Hj Hk Hnone. unfold write_maps.
  rewrite (float_recip_ok _ HR), run_lift_ok. cbv beta.
  destruct (sample_field g field) as [st|e] eqn:Hs.
  - destruct (sample_field_ok_points g field st i j k Hs Hi Hj Hk)
      as ([x Hx] & [z Hz] & [y Hy]).
    destruct Hnone as [H|[H|H]]; congruence.
  - apply sample_field_raise in Hs as ->. reflexivity.
Qed.

Ltac solve_none :=
  cbn [fst snd];
  repeat (rewrite file_get_write_ne by discriminate);
  apply file_get_create.

(** X14.  On a well-formed grid with [nz = 0] (and a non-zero major
    radius) write_maps raises [IndexError] at [Bxy[:,:,0]], after the file
    was created and the scalars and [g_22] were written: the file is left
    with these but without [Bxy], [bx], [bz] and the four maps. *)
Theorem write_maps_empty_z g field maps gridfile legacy w :
  wf_grid g -> ~ Rmaj g ^ 2 == 0 -> nz g = 0%nat ->
  let w' := fst (write_maps g field maps gridfile legacy w) in
  snd (write_maps g field maps gridfile legacy w) = Raise IndexError
  /\ is_Some (file_get gridfile "g_22" w')
  /\ file_get gridfile "Bxy" w' = None
  /\ file_get gridfile "bx" w' = None
  /\ file_get gridfile "bz" w' = None
  /\ forall key, key ∈ map_keys -> file_get gridfile key w' = None.
Proof.
  intros Hwf HR Hz w'. subst w'.
  destruct (write_maps g field maps gridfile legacy w) as [w' r] eqn:Hrun.
  destruct (sample_field_spec g field Hwf) as ([[Bxy tbx] tbz] & Hs & _).
  unfold write_maps in Hrun.
  rewrite Hs, (float_recip_ok _ HR) in Hrun. cbv beta iota in Hrun.
  unfold slice_k0 in Hrun. rewrite Hz in Hrun. cbn [Nat.eqb] in Hrun.
  destruct legacy; cbn [negb] in Hrun; repeat step_io_in Hrun;
    finish_run Hrun; cbn [fst snd];
    (split; [reflexivity|]);
    (split; [eexists; solve_get|]);
    (split; [solve_none|]); (split; [solve_none|]); (split; [solve_none|]);
    intros key Hkey; unfold map_keys in Hkey;
    repeat (apply elem_of_cons in Hkey as [->|Hkey]);
    try solve_none; inversion Hkey.
Qed.

(** X15.  When the dictionary lacks one of the four maps, write_maps
    raises [KeyError] for the first one it lacks, in the order
    forward x, forward z, backward x, backward z; by then the file holds
    the field arrays [Bxy], [bx] and [bz], but nothing is stored under the
    missing key. *)
Theorem write_maps_missing_map g field maps gridfile legacy w key :
  wf_grid g -> ~ Rmaj g ^ 2 == 0 -> (0 < nz g)%nat ->
  first_missing maps = Some key ->
  let w' := fst (write_maps g field maps gridfile legacy w) in
  snd (write_maps g field maps gridfile legacy w) = Raise (KeyError key)
  /\ file_get gridfile key w' = None
  /\ is_Some (file_get gridfile "Bxy" w')
  /\ is_Some (file_get gridfile "bx" w')
  /\ is_Some (file_get gridfile "bz" w').
Proof.
  intros Hwf HR Hnz Hmiss w'. subst w'.
  destruct (write_maps_outcome g field maps gridfile legacy w _ _ Hwf HR
              (surjective_pairing _))
    as (Bxy0 & tbx0 & tbz0 & _ & _ & _ & _ & _ & _ & _ & _ & _ & Harr & _).
  destruct (Harr Hnz) as (K9 & K10 & K11).
  cut (snd (write_maps g field maps gridfile legacy w) = Raise (KeyError key)
       /\ file_get gridfile key
            (fst (write_maps g field maps gridfile legacy w)) = None).
  { intros [A B]. rewrite K9, K10, K11. eauto 10. }
  clear K9 K10 K11 Harr.
  destruct (write_maps g field maps gridfile legacy w) as [w' r] eqn:Hrun.
  destruct (sample_field_spec g field Hwf) as ([[Bxy tbx] tbz] & Hs & _).
  unfold write_maps in Hrun.
  rewrite Hs, (float_recip_ok _ HR) in Hrun. cbv beta iota in Hrun.
  unfold slice_k0 in Hrun.
  destruct (Nat.eqb_spec (nz g) 0) as [Hz|_]; [lia|].
  unfold first_missing, map_keys in Hmiss. cbn [find] in Hmiss.
  destruct legacy; cbn [negb] in Hrun; repeat step_io_in Hrun.
  all: destruct (maps !! "forward_xt_prime") as [a1|] eqn:E1;
    [ rewrite (run_write_map_some _ _ _ _ _ _ _ E1) in Hrun
    | rewrite (run_write_map_none _ _ _ _ _ _ E1) in Hrun;
      injection Hmiss as <-; finish_run Hrun;
      split; [reflexivity|solve_none] ].
  all: destruct (maps !! "forward_zt_prime") as [a2|] eqn:E2;
    [ rewrite (run_write_map_some _ _ _ _ _ _ _ E2) in Hrun
    | rewrite (run_write_map_none _ _ _ _ _ _ E2) in Hrun;
      injection Hmiss as <-; finish_run Hrun;
      split; [reflexivity|solve_none] ].
  all: destruct (maps !! "backward_xt_prime") as [a3|] eqn:E3;
    [ rewrite (run_write_map_some _ _ _ _ _ _ _ E3) in Hrun
    | rewrite (run_write_map_none _ _ _ _ _ _ E3) in Hrun;
      injection Hmiss as <-; finish_run Hrun;
      split; [reflexivity|solve_none] ].
  all: destruct (maps !! "backward_zt_prime") as [a4|] eqn:E4;
    [ discriminate
    | rewrite (write_map_none _ _ _ _ _ E4) in Hrun;
      injection Hmiss as <-; finish_run Hrun;
      split; [reflexivity|solve_none] ].
Qed.

Lemma io_create path w :
  w_io (fst (file_create path w)) = w_io w ++ [EvCreate path].
Proof. reflexivity. Qed.

Lemma io_write path key v w :
  w_io (fst (file_write path key v w)) = w_io w ++ [EvWrite path key].
Proof. reflexivity. Qed.

(** X16.  A complete run of write_maps makes its I/O calls in one fixed
    order: it creates the file, then writes [nx], [ny], [nz] (unless
    [legacy]), [dx], [dy], [ixseps1], [ixseps2], [g_22], [Bxy], [bx],
    [bz] and the four maps, and makes no other call. *)
Theorem write_maps_io_order g field maps gridfile legacy w m1 m2 m3 m4 :
  wf_grid g -> ~ Rmaj g ^ 2 == 0 -> (0 < nz g)%nat ->
  maps !! "forward_xt_prime" = Some m1 ->
  maps !! "forward_zt_prime" = Some m2 ->
  maps !! "backward_xt_prime" = Some m3 ->
  maps !! "backward_zt_prime" = Some m4 ->
  w_io (fst (write_maps g field maps gridfile legacy w))
  = w_io w ++ write_events gridfile legacy.
Proof.
  intros Hwf HR Hnz E1 E2 E3 E4.
  destruct (write_maps g field maps gridfile legacy w) as [w' r] eqn:Hrun.
  destruct (sample_field_spec g field Hwf) as ([[Bxy tbx] tbz] & Hs & _).
  unfold write_maps in Hrun.
  rewrite Hs, (float_recip_ok _ HR) in Hrun. cbv beta iota in Hrun.
  unfold slice_k0 in Hrun.
  destruct (Nat.eqb_spec (nz g) 0) as [Hz|_]; [lia|].
  destruct legacy; cbn [negb] in Hrun; repeat step_io_in Hrun.
  all: rewrite (run_write_map_some _ _ _ _ _ _ _ E1) in Hrun;
    rewrite (run_write_map_some _ _ _ _ _ _ _ E2) in Hrun;
    rewrite (run_write_map_some _ _ _ _ _ _ _ E3) in Hrun;
    rewrite (write_map_some _ _ _ _ _ E4) in Hrun;
    finish_run Hrun; cbn [fst];
    rewrite !io_write, io_create;
    unfold write_events, map_keys; cbn [app map];
    rewrite <- !app_assoc; reflexivity.
Qed.

(** X17.  The maps that make_maps returns can always be written: on a
    well-formed grid with a non-zero major radius and [nz > 0], write_maps
    applied to them (in the world make_maps left) completes without a
    [KeyError], and every array of the dictionary is found in the file
    under its own key, transformed when [legacy] is set and unchanged
    otherwise. *)
Theorem make_maps_then_write_maps g field quiet kwargs w m gridfile legacy :
  wf_grid g -> ~ Rmaj g ^ 2 == 0 -> (0 < nz g)%nat ->
  snd (make_maps g field quiet kwargs w) = Ok m ->
  let w1 := fst (make_maps g field quiet kwargs w) in
  snd (write_maps g field m gridfile legacy w1) = Ok tt
  /\ forall key a,
       m !! key = Some a ->
       file_get gridfile key (fst (write_maps g field m gridfile legacy w1))
       = Some (VArr3 (if legacy then transform3D a else a)).
Proof.
  intros Hwf HR Hnz Hrun w1.
  apply make_maps_result, traced_maps_inv in Hrun as (st & -> & _).
  destruct st as [[[fx fz] bx] bz].
  destruct (pack_maps_lookup fx fz bx bz) as (L1 & L2 & L3 & L4).
  destruct (write_maps_outcome g field (pack_maps (fx, fz, bx, bz)) gridfile
              legacy w1 _ _ Hwf HR (surjective_pairing _))
    as (Bxy & tbx & tbz & _ & _ & _ & _ & _ & _ & _ & _ & _ & _ & Hmaps).
  destruct (Hmaps Hnz fx fz bx bz L1 L2 L3 L4) as (Hr & K1 & K2 & K3 & K4).
  split; [exact Hr|].
  intros key a. unfold pack_maps at 1.
  rewrite !lookup_insert, lookup_empty.
  repeat case_decide; intros [= <-]; subst key; assumption.
Qed.

(** ** More about fci_to_vtk *)

Lemma fci_to_vtk_run infile outfile scale w dx dy b c :
  have_evtk = true ->
  file_exists infile w ->
  file_get infile "dx" w = Some (VFloat dx) ->
  file_get infile "dy" w = Some (VFloat dy) ->
  file_get infile "bx" w = Some (VArr3 b) ->
  file_get infile "bz" w = Some (VArr3 c) ->
  fci_to_vtk infile outfile scale w
  = gridToVTK outfile
      (mul_scalar1
         (np_linspace0 (inject_Z (Z.of_nat (shape_nx b)) * dx) (shape_nx b))
         scale)
      (np_linspace0 (inject_Z (Z.of_nat (shape_ny b)) * dy) (shape_ny b))
      (mul_scalar1
         (np_linspace0
            (inject_Z (Z.of_nat (shape_nz b))
             * (inject_Z (Z.of_nat (shape_nx b)) * dx
                / inject_Z (Z.of_nat (shape_nz b))))
            (shape_nz b))
         scale)
      (mul_scalar3 b scale,
       np_ones3 (shape_nx b) (shape_ny b) (shape_nz b),
       mul_scalar3 c scale)
      (log_io (EvRead infile "bz")
         (log_io (EvRead infile "bx")
            (log_io (EvRead infile "dy")
               (log_io (EvRead infile "dx") (log_io (EvOpen infile) w))))).
Proof.
  intros Hb Hfile Hdx Hdy Hbx Hbz. unfold fci_to_vtk. rewrite Hb. cbn [negb].
  rewrite (run_open _ _ _ Hfile). cbv beta.
  rewrite !run_read. cbv beta.
  rewrite !file_get_log_io, Hbx. cbn [shape_of].
  rewrite run_lift_ok. cbv beta. rewrite run_read. cbv beta.
  rewrite !file_get_log_io, Hbz, Hdx, Hdy.
  rewrite run_ret. cbv beta iota. cbn [shape_of unpack3 as_scalar as_arr3].
  repeat (rewrite run_lift_ok; cbv beta iota).
  reflexivity.
Qed.

Lemma get3_mul_scalar3 (a : arr3) c i j k :
  get3 (mul_scalar3 a c) i j k = (fun v => v * c) <$> get3 a i j k.
Proof.
  unfold get3, mul_scalar3. rewrite lookup_map.
  destruct (a !! i) as [p|]; [|reflexivity]. simpl. rewrite lookup_map.
  destruct (p !! j) as [r|]; [|reflexivity]. simpl. apply lookup_map.
Qed.

Lemma get3_ones n0 n1 n2 i j k :
  (i < n0)%nat -> (j < n1)%nat -> (k < n2)%nat ->
  get3 (np_ones3 n0 n1 n2) i j k = Some 1.
Proof.
  intros Hi Hj Hk. unfold get3, np_ones3.
  rewrite lookup_replicate_2 by exact Hi. simpl.
  rewrite lookup_replicate_2 by exact Hj. simpl.
  apply lookup_replicate_2, Hk.
Qed.

Lemma np_linspace0_length stop n : length (np_linspace0 stop n) = n.
Proof. unfold np_linspace0, range. by rewrite length_map, length_seq. Qed.

Lemma mul_scalar1_length a c : length (mul_scalar1 a c) = length a.
Proof. apply length_map. Qed.

Lemma np_linspace0_last stop n :
  (1 < n)%nat ->
  exists v, last (np_linspace0 stop n) = Some v /\ v == stop.
Proof.
  intros Hn. unfold np_linspace0.
  replace (range n) with (range (S (n - 1))) by (f_equal; lia).
  rewrite last_map_range. eexists. split; [reflexivity|].
  replace (Z.of_nat (n - 1)) with (Z.of_nat n - 1)%Z by lia.
  apply Qmult_div_r. intros H.
  assert (Hd : 0 < inject_Z (Z.of_nat n - 1)).
  { replace 0 with (inject_Z 0) by reflexivity. rewrite <- Zlt_Qlt. lia. }
  rewrite H in Hd. exact (Qlt_irrefl _ Hd).
Qed.

Lemma mul_scalar1_last a c v :
  last a = Some v -> last (mul_scalar1 a c) = Some (v * c).
Proof.
  unfold mul_scalar1. induction a as [|x [|y a] IH]; [discriminate| |].
  - intros [= ->]. reflexivity.
  - intros H. exact (IH H).
Qed.

Lemma np_linspace0_head stop n :
  (0 < n)%nat -> exists v, head (np_linspace0 stop n) = Some v /\ v == 0.
Proof.
  intros Hn. unfold np_linspace0.
  replace (range n) with (range (S (n - 1))) by (f_equal; lia).
  rewrite head_map_range. eexists. split; [reflexivity|].
  simpl. apply Qmult_0_l.
Qed.

(** X18.  With the backend available and an input file that holds the
    scalars [dx], [dy] and the 3-D arrays [bx], [bz], fci_to_vtk returns
    without error; it opens the file, reads [dx], [dy], [bx] and [bz] in
    this order and nothing else (the forward maps are not read), writes
    one file at [outfile], and leaves every grid file as it was. *)
Theorem fci_to_vtk_reads infile outfile scale w dx dy b c :
  have_evtk = true ->
  file_exists infile w ->
  file_get infile "dx" w = Some (VFloat dx) ->
  file_get infile "dy" w = Some (VFloat dy) ->
  file_get infile "bx" w = Some (VArr3 b) ->
  file_get infile "bz" w = Some (VArr3 c) ->
  let w' := fst (fci_to_vtk infile outfile scale w) in
  snd (fci_to_vtk infile outfile scale w) = Ok tt
  /\ w_io w' = w_io w ++ [EvOpen infile; EvRead infile "dx";
                          EvRead infile "dy"; EvRead infile "bx";
                          EvRead infile "bz"; EvVtk outfile]
  /\ w_files w' = w_files w
  /\ is_Some (w_vtk w' !! outfile)
  /\ forall p, p ≠ outfile -> w_vtk w' !! p = w_vtk w !! p.
Proof.
  intros Hb Hfile Hdx Hdy Hbx Hbz w'. subst w'.
  rewrite (fci_to_vtk_run _ outfile scale _ _ _ _ _ Hb Hfile Hdx Hdy Hbx Hbz).
  unfold gridToVTK, log_io. cbn [fst snd w_io w_files w_vtk].
  split; [reflexivity|]. split; [rewrite <- !app_assoc; reflexivity|].
  split; [reflexivity|]. split.
  - rewrite lookup_insert_eq. eauto.
  - intros p Hp. apply lookup_insert_ne. congruence.
Qed.

(** X19.  In that case the exported vector field has the x component
    [bx * scale], the z component [bz * scale] and the y component 1 at
    every point of the shape of [bx]: the y component is neither scaled
    nor multiplied by [dy]. *)
Theorem fci_to_vtk_field infile outfile scale w dx dy b c :
  have_evtk = true ->
  file_exists infile w ->
  file_get infile "dx" w = Some (VFloat dx) ->
  file_get infile "dy" w = Some (VFloat dy) ->
  file_get infile "bx" w = Some (VArr3 b) ->
  file_get infile "bz" w = Some (VArr3 c) ->
  exists f,
    w_vtk (fst (fci_to_vtk infile outfile scale w)) !! outfile = Some f
    /\ forall i j k,
         get3 (fst (fst (vtk_B f))) i j k
           = (fun v => v * scale) <$> get3 b i j k
         /\ get3 (snd (vtk_B f)) i j k
           = (fun v => v * scale) <$> get3 c i j k
         /\ ((i < shape_nx b)%nat -> (j < shape_ny b)%nat ->
             (k < shape_nz b)%nat ->
             get3 (snd (fst (vtk_B f))) i j k = Some 1).
Proof.
  intros Hb Hfile Hdx Hdy Hbx Hbz.
  rewrite (fci_to_vtk_run _ outfile scale _ _ _ _ _ Hb Hfile Hdx Hdy Hbx Hbz).
  unfold gridToVTK. cbn [fst w_vtk]. rewrite lookup_insert_eq.
  eexists. split; [reflexivity|]. intros i j k. cbn [vtk_B fst snd].
  split; [apply get3_mul_scalar3|]. split; [apply get3_mul_scalar3|].
  apply get3_ones.
Qed.

(** X20.  In that case the three axes have the lengths of the shape of
    [bx]; for [nx > 1] and [nz > 1] the x axis starts at 0 and ends at
    [nx * dx * scale], and the z axis ends at the same value, because the
    z step is taken as [nx * dx / nz]; for [ny > 1] the y axis ends at
    [ny * dy], unscaled. *)
Theorem fci_to_vtk_axes infile outfile scale w dx dy b c :
  have_evtk = true ->
  file_exists infile w ->
  file_get infile "dx" w = Some (VFloat dx) ->
  file_get infile "dy" w = Some (VFloat dy) ->
  file_get infile "bx" w = Some (VArr3 b) ->
  file_get infile "bz" w = Some (VArr3 c) ->
  exists f,
    w_vtk (fst (fci_to_vtk infile outfile scale w)) !! outfile = Some f
    /\ length (vtk_x f) = shape_nx b
    /\ length (vtk_y f) = shape_ny b
    /\ length (vtk_z f) = shape_nz b
    /\ ((1 < shape_nx b)%nat ->
        exists x0 x1, head (vtk_x f) = Some x0 /\ x0 == 0
          /\ last (vtk_x f) = Some x1
          /\ x1 == inject_Z (Z.of_nat (shape_nx b)) * dx * scale)
    /\ ((1 < shape_nz b)%nat ->
        exists z1, last (vtk_z f) = Some z1
          /\ z1 == inject_Z (Z.of_nat (shape_nx b)) * dx * scale)
    /\ ((1 < shape_ny b)%nat ->
        exists y1, last (vtk_y f) = Some y1
          /\ y1 == inject_Z (Z.of_nat (shape_ny b)) * dy).
Proof.
  intros Hb Hfile Hdx Hdy Hbx Hbz.
  rewrite (fci_to_vtk_run _ outfile scale _ _ _ _ _ Hb Hfile Hdx Hdy Hbx Hbz).
  unfold gridToVTK. cbn [fst w_vtk]. rewrite lookup_insert_eq.
  eexists. split; [reflexivity|]. cbn [vtk_x vtk_y vtk_z].
  rewrite !mul_scalar1_length, !np_linspace0_length.
  split; [reflexivity|]. split; [reflexivity|]. split; [reflexivity|].
  split; [|split].
  - intros Hn.
    destruct (np_linspace0_head (inject_Z (Z.of_nat (shape_nx b)) * dx)
                (shape_nx b) ltac:(lia)) as (x0 & Hx0 & Ex0).
    destruct (np_linspace0_last (inject_Z (Z.of_nat (shape_nx b)) * dx)
                (shape_nx b) Hn) as (x1 & Hx1 & Ex1).
    exists (x0 * scale), (x1 * scale).
    split.
    { unfold mul_scalar1. destruct (np_linspace0 _ _); [discriminate|].
      injection Hx0 as ->. reflexivity. }
    split; [rewrite Ex0; apply Qmult_0_l|].
    split; [apply mul_scalar1_last, Hx1|]. rewrite Ex1. reflexivity.
  - intros Hn.
    destruct (np_linspace0_last
                (inject_Z (Z.of_nat (shape_nz b))
                 * (inject_Z (Z.of_nat (shape_nx b)) * dx
                    / inject_Z (Z.of_nat (shape_nz b))))
                (shape_nz b) Hn) as (z1 & Hz1 & Ez1).
    exists (z1 * scale). split; [apply mul_scalar1_last, Hz1|].
    rewrite Ez1. rewrite Qmult_div_r; [reflexivity|].
    intros H. assert (Hd : 0 < inject_Z (Z.of_nat (shape_nz b))).
    { replace 0 with (inject_Z 0) by reflexivity. rewrite <- Zlt_Qlt. lia. }
    rewrite H in Hd. exact (Qlt_irrefl _ Hd).
  - intros Hn.
    destruct (np_linspace0_last (inject_Z (Z.of_nat (shape_ny b)) * dy)
                (shape_ny b) Hn) as (y1 & Hy1 & Ey1).
    exists y1. split; [exact Hy1|exact Ey1].
Qed.

Lemma run_open_missing {A} path (k : unit -> M (world PS) A) w :
  w_files w !! path = None ->
  (file_open path ≫= k) w = (log_io (EvOpen path) w, Raise (IOError path)).
Proof.
  intros Hnone. unfold mbind, M_bind, bind, file_open. rewrite Hnone.
  reflexivity.
Qed.

(** X21.  With the backend available, an input path at which there is no
    grid file makes fci_to_vtk raise [IOError] for that path on opening
    it: nothing is read and nothing is written. *)
Theorem fci_to_vtk_missing_file infile outfile scale w :
  have_evtk = true ->
  w_files w !! infile = None ->
  let w' := fst (fci_to_vtk infile outfile scale w) in
  snd (fci_to_vtk infile outfile scale w) = Raise (IOError infile)
  /\ w_io w' = w_io w ++ [EvOpen infile]
  /\ w_vtk w' = w_vtk w
  /\ w_files w' = w_files w.
Proof.
  intros Hb Hnone w'. subst w'. unfold fci_to_vtk. rewrite Hb. cbn [negb].
  rewrite (run_open_missing _ _ _ Hnone).
  split; [reflexivity|]. split; [reflexivity|]. split; reflexivity.
Qed.

(** X22.  With [bx] present as a 3-D array and [dx], [dy], [bz] each of
    its own kind or missing, a missing [dx], [dy] or [bz] makes fci_to_vtk
    raise [TypeError] (arithmetic on [None]) before anything is exported,
    and the grid files are left as they were. *)
Theorem fci_to_vtk_missing_scalar infile outfile scale w b :
  have_evtk = true ->
  file_exists infile w ->
  file_get infile "bx" w = Some (VArr3 b) ->
  scalar_or_missing (file_get infile "dx" w) ->
  scalar_or_missing (file_get infile "dy" w) ->
  arr3_or_missing (file_get infile "bz" w) ->
  file_get infile "dx" w = None \/ file_get infile "dy" w = None
  \/ file_get infile "bz" w = None ->
  let w' := fst (fci_to_vtk infile outfile scale w) in
  snd (fci_to_vtk infile outfile scale w) = Raise TypeError
  /\ w_vtk w' = w_vtk w
  /\ w_files w' = w_files w.
Proof.
  intros Hb Hfile Hbx _ _ _ Hnone w'. subst w'.
  unfold fci_to_vtk. rewrite Hb. cbn [negb].
  rewrite (run_open _ _ _ Hfile). cbv beta.
  rewrite !run_read. cbv beta.
  rewrite !file_get_log_io, Hbx. cbn [shape_of].
  rewrite run_lift_ok. cbv beta. rewrite run_read. cbv beta.
  rewrite !file_get_log_io. rewrite run_ret. cbv beta iota.
  cbn [shape_of]. rewrite run_lift_ok. cbv beta iota.
  cbn [unpack3]. rewrite run_lift_ok. cbv beta iota.
  destruct (file_get infile "dx" w) as [[n|q|a|a]|] eqn:Hdx;
    cbn [as_scalar];
    try (rewrite run_lift_raise;
         split; [reflexivity|]; split; reflexivity);
    rewrite run_lift_ok; cbv beta.
  all: destruct (file_get infile "dy" w) as [[n'|q'|a'|a']|] eqn:Hdy;
    cbn [as_scalar];
    try (rewrite run_lift_raise;
         split; [reflexivity|]; split; reflexivity);
    rewrite run_lift_ok; cbv beta.
  all: cbn [as_arr3]; rewrite run_lift_ok; cbv beta.
  all: destruct Hnone as [H|[H|H]]; try discriminate.
  all: rewrite H; cbn [as_arr3]; rewrite run_lift_raise;
    split; [reflexivity|]; split; reflexivity.
Qed.

(** X23.  With the backend available, a [bx] that is present but is not a
    3-D array makes fci_to_vtk raise [ValueError] when its shape is
    unpacked into [nx, ny, nz]; nothing is exported. *)
Theorem fci_to_vtk_bad_rank infile outfile scale w v :
  have_evtk = true ->
  file_exists infile w ->
  file_get infile "bx" w = Some v ->
  (forall b, v ≠ VArr3 b) ->
  snd (fci_to_vtk infile outfile scale w) = Raise ValueError
  /\ w_vtk (fst (fci_to_vtk infile outfile scale w)) = w_vtk w.
Proof.
  intros Hb Hfile Hbx Hrank.
  unfold fci_to_vtk. rewrite Hb. cbn [negb].
  rewrite (run_open _ _ _ Hfile). cbv beta.
  rewrite !run_read. cbv beta.
  rewrite !file_get_log_io, Hbx.
  destruct v as [n|q|a|a]; [| | |exfalso; exact (Hrank a eq_refl)];
    cbn [shape_of]; rewrite run_lift_ok; cbv beta; rewrite run_read;
    cbv beta; rewrite run_ret; cbv beta iota; cbn [shape_of];
    rewrite run_lift_ok; cbv beta; cbn [unpack3];
    rewrite run_lift_raise; cbn [fst snd log_io w_vtk]; split; reflexivity.
Qed.

Lemma reads_only_bind {A B} (c : M (world PS) A) (k : A -> M (world PS) B) :
  reads_only c -> (forall a, reads_only (k a)) -> reads_only (c ≫= k).
Proof.
  intros Hc Hk w. unfold mbind, M_bind, bind.
  destruct (Hc w) as (A1 & A2 & A3).
  destruct (c w) as [w1 [a|e]]; simpl in *; [|auto].
  destruct (Hk a w1) as (B1 & B2 & B3).
  split; [congruence|]. split; congruence.
Qed.

Lemma reads_only_lift {A} (r : result A) : reads_only (lift r).
Proof. intros w. auto. Qed.

Lemma reads_only_ret {A} (a : A) : reads_only (ret a).
Proof. intros w. auto. Qed.

Lemma reads_only_raise {A} e : reads_only (@raise (world PS) A e).
Proof. intros w. auto. Qed.

Lemma reads_only_open path : reads_only (file_open path).
Proof. intros w. unfold file_open. destruct (w_files w !! path); auto. Qed.

Lemma reads_only_read path key : reads_only (file_read path key).
Proof. intros w. auto. Qed.

Lemma reads_only_vtk path x y z B : reads_only (gridToVTK path x y z B).
Proof. intros w. auto. Qed.

(** X24.  fci_to_vtk only reads grid files: in every run, whatever the
    backend, the input and the outcome, the grid files and the progress
    bar are exactly as before. *)
Theorem fci_to_vtk_read_only infile outfile scale w :
  w_files (fst (fci_to_vtk infile outfile scale w)) = w_files w
  /\ w_progress (fst (fci_to_vtk infile outfile scale w)) = w_progress w
  /\ w_calls (fst (fci_to_vtk infile outfile scale w)) = w_calls w.
Proof.
  revert w. change (reads_only (fci_to_vtk infile outfile scale)).
  unfold fci_to_vtk. destruct have_evtk; cbn [negb]; [|apply reads_only_ret].
  apply reads_only_bind; [apply reads_only_open|intros _].
  do 3 (apply reads_only_bind; [apply reads_only_read|intros ?]).
  apply reads_only_bind; [apply reads_only_lift|intros ?].
  apply reads_only_bind; [apply reads_only_read|intros ?].
  apply reads_only_bind.
  - match goal with |- reads_only (match ?x with _ => _ end) => destruct x end.
    + apply reads_only_ret.
    + do 2 (apply reads_only_bind; [apply reads_only_read|intros ?]).
      apply reads_only_raise.
  - intros [bx bz].
    apply reads_only_bind; [apply reads_only_lift|intros ?].
    apply reads_only_bind; [apply reads_only_lift|intros [[n0 n1] n2]].
    do 4 (apply reads_only_bind; [apply reads_only_lift|intros ?]).
    apply reads_only_vtk.
Qed.

Lemma for_pure_preserves {A} (P : A -> Prop) (body : nat -> A -> result A)
    js a a' :
  (forall j a a', P a -> body j a = Ok a' -> P a') ->
  P a -> for_pure js body a = Ok a' -> P a'.
Proof.
  intros Hbody. revert a. induction js as [|j js IH]; intros a Ha.
  - intros [= <-]. exact Ha.
  - cbn [for_pure]. unfold mbind, result_bind.
    destruct (body j a) as [a1|e] eqn:Hstep; [|discriminate].
    apply IH. exact (Hbody _ _ _ Ha Hstep).
Qed.

Lemma set3_shape3 n0 n1 n2 i j k v a :
  shape3 n0 n1 n2 a -> shape3 n0 n1 n2 (set3 i j k v a).
Proof.
  intros [Hlen Hplanes]. unfold set3. split; [by rewrite length_alter|].
  apply Forall_alter; [exact Hplanes|].
  intros p _ [Hp Hrows]. split; [by rewrite length_alter|].
  apply Forall_alter; [exact Hrows|].
  intros r _ Hr. by rewrite length_insert.
Qed.

Lemma sample_field_shape3 g field Bxy tbx tbz :
  sample_field g field = Ok (Bxy, tbx, tbz) ->
  shape3 (nx g) (ny g) (nz g) Bxy /\ shape3 (nx g) (ny g) (nz g) tbx
  /\ shape3 (nx g) (ny g) (nz g) tbz.
Proof.
  unfold sample_field. intros Hrun.
  pose (P := fun st : arr3 * arr3 * arr3 =>
       shape3 (nx g) (ny g) (nz g) (fst (fst st))
       /\ shape3 (nx g) (ny g) (nz g) (snd (fst st))
       /\ shape3 (nx g) (ny g) (nz g) (snd st)).
  change (P (Bxy, tbx, tbz)).
  refine (for_pure_preserves P _ _ _ _ _ _ Hrun).
  - intros i st1 st1'. apply (for_pure_preserves P).
    intros j st2 st2'. apply (for_pure_preserves P).
    intros k [[a1 a2] a3] st' (S1 & S2 & S3). unfold sample_point, index.
    unfold mbind, result_bind.
    destruct (xarray g !! i); [|discriminate].
    destruct (zarray g !! k); [|discriminate].
    destruct (yarray g !! j); [|discriminate].
    intros [= <-]. unfold P. cbn [fst snd] in *.
    split; [|split]; apply set3_shape3; assumption.
  - unfold P. cbn [fst snd]. split; [|split]; apply np_zeros3_shape3.
Qed.

Lemma shape3_dims n0 n1 n2 a :
  shape3 n0 n1 n2 a -> (0 < n0)%nat -> (0 < n1)%nat ->
  shape_nx a = n0 /\ shape_ny a = n1 /\ shape_nz a = n2.
Proof.
  intros [Hlen Hplanes] H0 H1. unfold shape_nx, shape_ny, shape_nz.
  split; [exact Hlen|].
  destruct a as [|p a]; [simpl in Hlen; lia|].
  apply Forall_cons in Hplanes as [[Hp Hrows] _]. simpl.
  split; [exact Hp|].
  destruct p as [|r p]; [simpl in Hp; lia|].
  apply Forall_cons in Hrows as [Hr _]. exact Hr.
Qed.

(** X25.  The file that write_maps leaves can be exported: on a
    well-formed grid with positive [nx], [ny], [nz] and a non-zero major
    radius, fci_to_vtk (backend available) applied to the grid file just
    written returns without error, for either value of [legacy]; the three
    axes have [nx], [ny] and [nz] points and the exported field at
    (i, j, k) is [(Bx * scale, 1, Bz * scale)] with the field components
    taken at [(x_i, z_k, y_j)]. *)
Theorem write_maps_then_fci_to_vtk g field maps gridfile legacy outfile
    scale w :
  wf_grid g -> ~ Rmaj g ^ 2 == 0 ->
  (0 < nx g)%nat -> (0 < ny g)%nat -> (0 < nz g)%nat ->
  have_evtk = true ->
  let w1 := fst (write_maps g field maps gridfile legacy w) in
  snd (fci_to_vtk gridfile outfile scale w1) = Ok tt
  /\ exists f,
       w_vtk (fst (fci_to_vtk gridfile outfile scale w1)) !! outfile = Some f
       /\ length (vtk_x f) = nx g
       /\ length (vtk_y f) = ny g
       /\ length (vtk_z f) = nz g
       /\ forall i j k x y z,
            xarray g !! i = Some x -> yarray g !! j = Some y ->
            zarray g !! k = Some z ->
            get3 (fst (fst (vtk_B f))) i j k
              = Some (Bxfunc field x z y * scale)
            /\ get3 (snd (fst (vtk_B f))) i j k = Some 1
            /\ get3 (snd (vtk_B f)) i j k
              = Some (Bzfunc field x z y * scale).
Proof.
  intros Hwf HR Hnx Hny Hnz Hb w1.
  destruct (write_maps_outcome g field maps gridfile legacy w _ _ Hwf HR
              (surjective_pairing _))
    as (Bxy & tbx & tbz & Hs & _ & _ & _ & Kdx & Kdy & _ & _ & _ & Harr & _).
  destruct (Harr Hnz) as (_ & Kbx & Kbz). fold w1 in Kdx, Kdy, Kbx, Kbz.
  assert (Hfile : file_exists gridfile w1).
  { unfold file_exists. unfold file_get in Kdx.
    destruct (w_files w1 !! gridfile); [eauto|discriminate]. }
  destruct (sample_field_shape3 g field _ _ _ Hs) as (_ & Sx & _).
  destruct (shape3_dims _ _ _ _ Sx Hnx Hny) as (D0 & D1 & D2).
  destruct (sample_field_spec g field Hwf) as (st & Hs' & _ & Hent).
  rewrite Hs in Hs'. injection Hs' as <-.
  rewrite (fci_to_vtk_run _ outfile scale _ _ _ _ _ Hb Hfile Kdx Kdy Kbx Kbz).
  rewrite D0, D1, D2. unfold gridToVTK. cbn [fst snd w_vtk].
  split; [reflexivity|]. rewrite lookup_insert_eq.
  eexists. split; [reflexivity|]. cbn [vtk_x vtk_y vtk_z vtk_B fst snd].
  rewrite !mul_scalar1_length, !np_linspace0_length.
  split; [reflexivity|]. split; [reflexivity|]. split; [reflexivity|].
  intros i j k x y z Hx Hy Hz.
  pose proof (lookup_lt_Some _ _ _ Hx) as Hi.
  pose proof (lookup_lt_Some _ _ _ Hy) as Hj.
  pose proof (lookup_lt_Some _ _ _ Hz) as Hk.
  destruct Hwf as [Lx Ly Lz _ _ _].
  destruct (Hent i j k ltac:(lia) ltac:(lia) ltac:(lia)) as [_ Hv].
  specialize (Hv I). unfold point_values in Hv. rewrite Hx, Hz, Hy in Hv.
  destruct (entries3_inv (Bxy, tbx, tbz) i j k _ _ _ Hv) as (_ & Ex & Ez).
  rewrite !get3_mul_scalar3, Ex, Ez.
  split; [reflexivity|]. split; [apply get3_ones; lia|reflexivity].
Qed.

Lemma io_log_io ev (w : world PS) : w_io (log_io ev w) = w_io w ++ [ev].
Proof. reflexivity. Qed.

Ltac in_events H :=
  repeat (apply elem_of_cons in H as [->|H]);
  [ repeat first [apply list_elem_of_here | apply list_elem_of_further] ..
  | inversion H ].

(** X26.  fci_to_vtk never reads the forward maps: in every run the I/O
    calls it adds are an opening of the input, reads of [dx], [dy], [bx]
    and [bz], and at most one export; a read of [forward_xt_prime] or
    [forward_zt_prime] is never among them, because a missing [bx] stops
    the call before the branch that would read them. *)
Theorem fci_to_vtk_never_reads_maps infile outfile scale w :
  exists evs,
    w_io (fst (fci_to_vtk infile outfile scale w)) = w_io w ++ evs
    /\ forall ev, ev ∈ evs ->
         ev ∈ [EvOpen infile; EvRead infile "dx"; EvRead infile "dy";
               EvRead infile "bx"; EvRead infile "bz"; EvVtk outfile].
Proof.
  unfold fci_to_vtk. destruct have_evtk; cbn [negb].
  2:{ exists []. split; [symmetry; apply app_nil_r|]. intros ev H.
      inversion H. }
  destruct (w_files w !! infile) as [file|] eqn:Hfile.
  2:{ rewrite (run_open_missing _ _ _ Hfile). exists [EvOpen infile].
      split; [reflexivity|]. intros ev Hev. in_events Hev. }
  rewrite (run_open _ _ _ (ex_intro _ file Hfile)). cbv beta.
  rewrite !run_read. cbv beta. rewrite !file_get_log_io.
  destruct (file_get infile "bx" w) as [v|].
  2:{ cbn [shape_of]. rewrite run_lift_raise. cbn [fst]. rewrite !io_log_io.
      exists [EvOpen infile; EvRead infile "dx"; EvRead infile "dy";
              EvRead infile "bx"].
      split; [rewrite <- !app_assoc; reflexivity|].
      intros ev Hev. in_events Hev. }
  assert (Hshape : exists sh, shape_of (Some v) = Ok sh)
    by (destruct v; eexists; reflexivity).
  destruct Hshape as (sh & Hsh). rewrite Hsh.
  rewrite run_lift_ok. cbv beta. rewrite run_read. cbv beta.
  rewrite run_ret. cbv beta iota. rewrite Hsh.
  rewrite run_lift_ok. cbv beta.
  destruct (unpack3 sh) as [[[n0 n1] n2]|e];
    [rewrite run_lift_ok; cbv beta iota|rewrite run_lift_raise].
  1: destruct (as_scalar (file_get infile "dx" w)) as [dx|e];
    [rewrite run_lift_ok; cbv beta iota|rewrite run_lift_raise].
  1: destruct (as_scalar (file_get infile "dy" w)) as [dy|e];
    [rewrite run_lift_ok; cbv beta iota|rewrite run_lift_raise].
  1: destruct (as_arr3 (Some v)) as [b|e];
    [rewrite run_lift_ok; cbv beta iota|rewrite run_lift_raise].
  1: rewrite !file_get_log_io;
     destruct (as_arr3 (file_get infile "bz" w)) as [c|e];
    [rewrite run_lift_ok; cbv beta iota|rewrite run_lift_raise].
  1: unfold gridToVTK; cbn [fst w_io]; rewrite !io_log_io;
     exists [EvOpen infile; EvRead infile "dx"; EvRead infile "dy";
             EvRead infile "bx"; EvRead infile "bz"; EvVtk outfile];
     split; [rewrite <- !app_assoc; reflexivity|]; intros ev Hev; exact Hev.
  all: cbn [fst]; rewrite !io_log_io;
    exists [EvOpen infile; EvRead infile "dx"; EvRead infile "dy";
            EvRead infile "bx"; EvRead infile "bz"];
    (split; [rewrite <- !app_assoc; reflexivity|]); intros ev Hev; in_events Hev.
Qed.

End Zoidberg.

Arguments same_disk {PS} _ _.
Arguments file_get {PS} _ _ _.
Arguments file_exists {PS} _ _.
Arguments set_files {PS} _ _.
Arguments make_maps _ {PS KW} _ _ _ _ _ _.
Arguments write_maps {PS} _ _ _ _ _ _ _ _.
Arguments fci_to_vtk {PS} _ _ _ _ _.
Arguments progress_total {PS KW} _.

(** ** Two runs of make_maps *)

(** C10.  The maps do not depend on progress reporting: two runs of
    make_maps on the same grid, field and tracer that both return maps
    return the same maps, whatever the quiet flags, the progress bars,
    their arguments and their states are; and the run with [quiet] set
    then returns these maps too and leaves the world alone. *)
Theorem make_maps_noninterference tracer g field
    PS1 KW1 (progress1 : Q -> KW1 -> PS1 -> PS1 * result unit)
    PS2 KW2 (progress2 : Q -> KW2 -> PS2 -> PS2 * result unit)
    quiet1 quiet2 kwargs1 kwargs2 (w1 : world PS1) (w2 : world PS2) m1 m2 :
  snd (make_maps tracer progress1 g field quiet1 kwargs1 w1) = Ok m1 ->
  snd (make_maps tracer progress2 g field quiet2 kwargs2 w2) = Ok m2 ->
  m1 = m2
  /\ make_maps tracer progress1 g field true kwargs1 w1 = (w1, Ok m1)
  /\ make_maps tracer progress2 g field true kwargs2 w2 = (w2, Ok m1).
Proof.
  intros H1 H2.
  apply make_maps_result in H1. apply make_maps_result in H2.
  rewrite !make_maps_quiet, H1. split; [congruence|]. split; reflexivity.
Qed.

(** ** Examples *)



Lemma make_maps_single_plane_raises_witness :
  ny grid_one_plane = 1%nat
  /\ make_maps rest_tracer counting_progress grid_one_plane field_zero
       false tt world0
     = (world0, Raise ZeroDivisionError).
Proof.
  split; [reflexivity|].
  apply (make_maps_single_plane_raises rest_tracer nat unit counting_progress
           grid_one_plane field_zero tt world0).
  reflexivity.
Defined.

Lemma make_maps_tracer_failure_witness :
  snd (make_maps (stuck_tracer (2 # 10)) counting_progress
         grid_4_3_4 field_zero true tt world0) = Raise (TracingError 0)
  /\ same_disk world0
       (fst (make_maps (stuck_tracer (2 # 10)) counting_progress
               grid_4_3_4 field_zero true tt world0)).
Proof.
  assert (Hj : (2 < ny grid_4_3_4)%nat) by (simpl; lia).
  destruct (make_maps_tracer_failure (stuck_tracer (2 # 10)) nat unit
              counting_progress grid_4_3_4 field_zero true tt world0
              2%nat (2 # 10) (TracingError 0) Hj eq_refl
              (or_introl eq_refl)) as (_ & Hdisk & Hexn).
  split; [|exact Hdisk].
  apply Hexn; [reflexivity| |reflexivity].
  intros [|[|j']] Hj'; [split; exact I|split; exact I|lia].
Defined.


Lemma make_maps_noninterference_witness :
  snd (make_maps rest_tracer counting_progress grid_4_3_4 field_zero
         false tt world0) = Ok maps_4_3_4
  /\ snd (make_maps rest_tracer fragile_progress grid_4_3_4 field_zero
            true tt world0) = Ok maps_4_3_4
  /\ make_maps rest_tracer counting_progress grid_4_3_4 field_zero
       true tt world0 = (world0, Ok maps_4_3_4).
Proof.
  assert (H1 : snd (make_maps rest_tracer counting_progress grid_4_3_4
                      field_zero false tt world0) = Ok maps_4_3_4)
    by (vm_compute; reflexivity).
  assert (H2 : snd (make_maps rest_tracer fragile_progress grid_4_3_4
                      field_zero true tt world0) = Ok maps_4_3_4)
    by (vm_compute; reflexivity).
  split; [exact H1|]. split; [exact H2|].
  exact (proj1 (proj2 (make_maps_noninterference rest_tracer grid_4_3_4
                         field_zero nat unit counting_progress
                         nat unit fragile_progress false true tt tt
                         world0 world0 maps_4_3_4 maps_4_3_4 H1 H2))).
Defined.

Lemma write_maps_ixseps_witness :
  file_get "fci.grid.nc" "ixseps1"
    (fst (write_maps rational_sqrt doubling_transform grid_4_3_4 field_shear
            maps_4_3_4 "fci.grid.nc" false world0))
  = Some (VInt 5)
  /\ file_get "fci.grid.nc" "ixseps2"
       (fst (write_maps rational_sqrt doubling_transform grid_4_3_4
               field_shear maps_4_3_4 "fci.grid.nc" false world0))
     = Some (VInt 5).
Proof.
  assert (Hwf : wf_grid grid_4_3_4) by (split; reflexivity).
  assert (HR : ~ Rmaj grid_4_3_4 ^ 2 == 0)
    by (intros H; vm_compute in H; discriminate).
  exact (write_maps_ixseps nat rational_sqrt doubling_transform grid_4_3_4
           field_shear maps_4_3_4 "fci.grid.nc" false world0 Hwf HR).
Defined.


Lemma write_maps_field_arrays_witness :
  exists g_22,
    file_get "fci.grid.nc" "g_22"
      (fst (write_maps rational_sqrt doubling_transform grid_4_3_4
              field_shear maps_4_3_4 "fci.grid.nc" false world0))
    = Some (VArr2 g_22)
    /\ length g_22 = 4%nat.
Proof.
  assert (Hwf : wf_grid grid_4_3_4) by (split; reflexivity).
  assert (HR : ~ Rmaj grid_4_3_4 ^ 2 == 0)
    by (intros H; vm_compute in H; discriminate).
  destruct (write_maps_field_arrays nat rational_sqrt doubling_transform
              grid_4_3_4 field_shear maps_4_3_4 "fci.grid.nc" false world0
              Hwf HR) as [(g_22 & Hg & Hlen & _) _].
  exists g_22. split; [exact Hg|exact Hlen].
Defined.

Lemma fci_to_vtk_missing_bx_witness :
  snd (fci_to_vtk true "fci.grid.nc" "fci.vts" 5 world_no_bx)
  = Raise AttributeError.
Proof.
  assert (Hfile : file_exists "fci.grid.nc" world_no_bx)
    by (exists grid_file_no_bx; apply lookup_singleton_eq).
  assert (Hbx : file_get "fci.grid.nc" "bx" world_no_bx = None)
    by (vm_compute; reflexivity).
  exact (proj1 (fci_to_vtk_missing_bx nat true "fci.grid.nc" "fci.vts" 5
                  world_no_bx eq_refl Hfile Hbx)).
Defined.

Lemma fci_to_vtk_no_backend_witness :
  fci_to_vtk false "fci.grid.nc" "fci.vts" 5 world_no_bx
  = (world_no_bx, Ok tt).
Proof.
  exact (fci_to_vtk_no_backend nat false "fci.grid.nc" "fci.vts" 5
           world_no_bx eq_refl).
Defined.

(** ** Examples for the further theorems *)


Lemma make_maps_shape_witness :
  dom maps_4_3_4 = list_to_set map_keys
  /\ forall key a, maps_4_3_4 !! key = Some a -> shape3 4 3 4 a.
Proof.
  apply (make_maps_shape rest_tracer nat unit counting_progress grid_4_3_4
           field_zero true tt world0 maps_4_3_4).
  reflexivity.
Defined.

Lemma make_maps_progress_exception_witness :
  snd (make_maps rest_tracer halfway_progress grid_4_3_4 field_zero
         false tt world0) = Raise (ProgressError 2)
  /\ w_calls (fst (make_maps rest_tracer halfway_progress grid_4_3_4
                     field_zero false tt world0))
     = w_calls world0 ++ map (fraction_at grid_4_3_4) (seq 0 2).
Proof.
  apply (make_maps_progress_exception rest_tracer nat unit halfway_progress
           grid_4_3_4 field_zero tt world0 1 (ProgressError 2)).
  - simpl. lia.
  - simpl. lia.
  - intros [|j'] s Hj'; [reflexivity|lia].
  - intros [|j'] Hj'; [split; exact I|lia].
  - intros s. reflexivity.
Defined.

Lemma make_maps_calls_until_failure_witness :
  snd (make_maps (stuck_tracer (1 # 10)) counting_progress grid_4_3_4
         field_zero false tt world0) = Raise (TracingError 0)
  /\ w_calls (fst (make_maps (stuck_tracer (1 # 10)) counting_progress
                     grid_4_3_4 field_zero false tt world0))
     = w_calls world0 ++ map (fraction_at grid_4_3_4) (seq 0 2).
Proof.
  apply (make_maps_calls_until_failure (stuck_tracer (1 # 10)) nat unit
           counting_progress grid_4_3_4 field_zero tt world0 1
           (TracingError 0)).
  - simpl. lia.
  - simpl. lia.
  - intros j' s _. reflexivity.
  - intros [|j'] Hj'; [split; exact I|lia].
  - left. reflexivity.
Defined.



Lemma write_maps_scalars_witness :
  file_get "fci.grid.nc" "nx"
    (fst (write_maps rational_sqrt doubling_transform grid_4_3_4 field_shear
            ∅ "fci.grid.nc" false world0)) = Some (VInt 4)
  /\ file_get "fci.grid.nc" "ny"
       (fst (write_maps rational_sqrt doubling_transform grid_4_3_4
               field_shear ∅ "fci.grid.nc" false world0)) = Some (VInt 3)
  /\ file_get "fci.grid.nc" "dx"
       (fst (write_maps rational_sqrt doubling_transform grid_4_3_4
               field_shear ∅ "fci.grid.nc" false world0)) = Some (VFloat 1)
  /\ file_get "fci.grid.nc" "dy"
       (fst (write_maps rational_sqrt doubling_transform grid_4_3_4
               field_shear ∅ "fci.grid.nc" false world0))
     = Some (VFloat (1 # 10)).
Proof.
  assert (Hwf : wf_grid grid_4_3_4) by (split; reflexivity).
  assert (HR : ~ Rmaj grid_4_3_4 ^ 2 == 0)
    by (intros H; vm_compute in H; discriminate).
  exact (write_maps_scalars nat rational_sqrt doubling_transform grid_4_3_4
           field_shear ∅ "fci.grid.nc" false world0 Hwf HR).
Defined.

Lemma write_maps_key_set_witness :
  is_Some (file_get "fci.grid.nc" "nz"
             (fst (write_maps rational_sqrt doubling_transform grid_4_3_4
                     field_shear maps_4_3_4 "fci.grid.nc" true world0)))
  <-> "nz" ∈ grid_file_keys /\ (true = true -> "nz" ≠ "nz").
Proof.
  assert (Hwf : wf_grid grid_4_3_4) by (split; reflexivity).
  assert (HR : ~ Rmaj grid_4_3_4 ^ 2 == 0)
    by (intros H; vm_compute in H; discriminate).
  assert (Hnz : (0 < nz grid_4_3_4)%nat) by (simpl; lia).
  exact (write_maps_key_set nat rational_sqrt doubling_transform grid_4_3_4
           field_shear maps_4_3_4 "fci.grid.nc" true world0
           x_index_4_3_4 z_index_4_3_4 x_index_4_3_4 z_index_4_3_4 "nz"
           Hwf HR Hnz eq_refl eq_refl eq_refl eq_refl).
Defined.

Lemma write_maps_zero_radius_witness :
  write_maps rational_sqrt doubling_transform grid_no_radius field_shear
    maps_4_3_4 "fci.grid.nc" false world0
  = (world0, Raise ZeroDivisionError).
Proof.
  apply (write_maps_zero_radius nat rational_sqrt doubling_transform
           grid_no_radius field_shear maps_4_3_4 "fci.grid.nc" false world0).
  reflexivity.
Defined.

Lemma write_maps_short_axis_witness :
  write_maps rational_sqrt doubling_transform grid_short_x field_shear
    maps_4_3_4 "fci.grid.nc" false world0
  = (world0, Raise IndexError).
Proof.
  apply (write_maps_short_axis nat rational_sqrt doubling_transform
           grid_short_x field_shear maps_4_3_4 "fci.grid.nc" false world0
           3 0 0).
  - intros H. vm_compute in H. discriminate.
  - simpl. lia.
  - simpl. lia.
  - simpl. lia.
  - left. reflexivity.
Defined.

Lemma write_maps_empty_z_witness :
  snd (write_maps rational_sqrt doubling_transform grid_no_z field_shear
         maps_4_3_4 "fci.grid.nc" false world0) = Raise IndexError
  /\ file_get "fci.grid.nc" "Bxy"
       (fst (write_maps rational_sqrt doubling_transform grid_no_z
               field_shear maps_4_3_4 "fci.grid.nc" false world0)) = None.
Proof.
  assert (Hwf : wf_grid grid_no_z) by (split; reflexivity).
  assert (HR : ~ Rmaj grid_no_z ^ 2 == 0)
    by (intros H; vm_compute in H; discriminate).
  destruct (write_maps_empty_z nat rational_sqrt doubling_transform grid_no_z
              field_shear maps_4_3_4 "fci.grid.nc" false world0 Hwf HR
              eq_refl) as (Hr & _ & HB & _).
  split; [exact Hr|exact HB].
Defined.

Lemma write_maps_missing_map_witness :
  snd (write_maps rational_sqrt doubling_transform grid_4_3_4 field_shear
         maps_no_backward_x "fci.grid.nc" false world0)
  = Raise (KeyError "backward_xt_prime")
  /\ file_get "fci.grid.nc" "backward_xt_prime"
       (fst (write_maps rational_sqrt doubling_transform grid_4_3_4
               field_shear maps_no_backward_x "fci.grid.nc" false world0))
     = None.
Proof.
  assert (Hwf : wf_grid grid_4_3_4) by (split; reflexivity).
  assert (HR : ~ Rmaj grid_4_3_4 ^ 2 == 0)
    by (intros H; vm_compute in H; discriminate).
  assert (Hnz : (0 < nz grid_4_3_4)%nat) by (simpl; lia).
  assert (Hkey : first_missing maps_no_backward_x = Some "backward_xt_prime")
    by (vm_compute; reflexivity).
  destruct (write_maps_missing_map nat rational_sqrt doubling_transform
              grid_4_3_4 field_shear maps_no_backward_x "fci.grid.nc" false
              world0 "backward_xt_prime" Hwf HR Hnz Hkey) as (Hr & Hk & _).
  split; [exact Hr|exact Hk].
Defined.

Lemma write_maps_io_order_witness :
  w_io (fst (write_maps rational_sqrt doubling_transform grid_4_3_4
               field_shear maps_4_3_4 "fci.grid.nc" true world0))
  = w_io world0 ++ write_events "fci.grid.nc" true.
Proof.
  assert (Hwf : wf_grid grid_4_3_4) by (split; reflexivity).
  assert (HR : ~ Rmaj grid_4_3_4 ^ 2 == 0)
    by (intros H; vm_compute in H; discriminate).
  assert (Hnz : (0 < nz grid_4_3_4)%nat) by (simpl; lia).
  exact (write_maps_io_order nat rational_sqrt doubling_transform grid_4_3_4
           field_shear maps_4_3_4 "fci.grid.nc" true world0
           x_index_4_3_4 z_index_4_3_4 x_index_4_3_4 z_index_4_3_4
           Hwf HR Hnz eq_refl eq_refl eq_refl eq_refl).
Defined.

Lemma make_maps_then_write_maps_witness :
  snd (make_maps rest_tracer counting_progress grid_4_3_4 field_zero
         false tt world0) = Ok maps_4_3_4
  /\ snd (write_maps rational_sqrt doubling_transform grid_4_3_4 field_zero
            maps_4_3_4 "fci.grid.nc" true
            (fst (make_maps rest_tracer counting_progress grid_4_3_4
                    field_zero false tt world0))) = Ok tt.
Proof.
  assert (Hwf : wf_grid grid_4_3_4) by (split; reflexivity).
  assert (HR : ~ Rmaj grid_4_3_4 ^ 2 == 0)
    by (intros H; vm_compute in H; discriminate).
  assert (Hnz : (0 < nz grid_4_3_4)%nat) by (simpl; lia).
  assert (Hrun : snd (make_maps rest_tracer counting_progress grid_4_3_4
                        field_zero false tt world0) = Ok maps_4_3_4)
    by reflexivity.
  split; [exact Hrun|].
  exact (proj1 (make_maps_then_write_maps rest_tracer nat unit
                  counting_progress rational_sqrt doubling_transform
                  grid_4_3_4 field_zero false tt world0 maps_4_3_4
                  "fci.grid.nc" true Hwf HR Hnz Hrun)).
Defined.

Lemma fci_to_vtk_reads_witness :
  snd (fci_to_vtk true "fci.grid.nc" "fci.vts" 5 world_2_2_3) = Ok tt
  /\ w_io (fst (fci_to_vtk true "fci.grid.nc" "fci.vts" 5 world_2_2_3))
     = w_io world_2_2_3
       ++ [EvOpen "fci.grid.nc"; EvRead "fci.grid.nc" "dx";
           EvRead "fci.grid.nc" "dy"; EvRead "fci.grid.nc" "bx";
           EvRead "fci.grid.nc" "bz"; EvVtk "fci.vts"].
Proof.
  assert (Hfile : file_exists "fci.grid.nc" world_2_2_3)
    by (exists grid_file_2_2_3; apply lookup_singleton_eq).
  destruct (fci_to_vtk_reads nat true "fci.grid.nc" "fci.vts" 5 world_2_2_3
              (1 # 2) (1 # 10) bx_2_2_3 bz_2_2_3 eq_refl Hfile
              eq_refl eq_refl eq_refl eq_refl) as (Hr & Hio & _).
  split; [exact Hr|exact Hio].
Defined.

Lemma fci_to_vtk_field_witness :
  exists f,
    w_vtk (fst (fci_to_vtk true "fci.grid.nc" "fci.vts" 5 world_2_2_3))
      !! "fci.vts" = Some f
    /\ get3 (fst (fst (vtk_B f))) 1 0 2
       = (fun v => v * 5) <$> get3 bx_2_2_3 1 0 2
    /\ get3 (snd (fst (vtk_B f))) 1 0 2 = Some 1.
Proof.
  assert (Hfile : file_exists "fci.grid.nc" world_2_2_3)
    by (exists grid_file_2_2_3; apply lookup_singleton_eq).
  destruct (fci_to_vtk_field nat true "fci.grid.nc" "fci.vts" 5 world_2_2_3
              (1 # 2) (1 # 10) bx_2_2_3 bz_2_2_3 eq_refl Hfile
              eq_refl eq_refl eq_refl eq_refl) as (f & Hf & HB).
  exists f. split; [exact Hf|].
  destruct (HB 1%nat 0%nat 2%nat) as (Hx & _ & Hy).
  split; [exact Hx|]. apply Hy; vm_compute; lia.
Defined.

Lemma fci_to_vtk_axes_witness :
  exists f,
    w_vtk (fst (fci_to_vtk true "fci.grid.nc" "fci.vts" 5 world_2_2_3))
      !! "fci.vts" = Some f
    /\ length (vtk_x f) = 2%nat
    /\ length (vtk_y f) = 2%nat
    /\ length (vtk_z f) = 3%nat.
Proof.
  assert (Hfile : file_exists "fci.grid.nc" world_2_2_3)
    by (exists grid_file_2_2_3; apply lookup_singleton_eq).
  destruct (fci_to_vtk_axes nat true "fci.grid.nc" "fci.vts" 5 world_2_2_3
              (1 # 2) (1 # 10) bx_2_2_3 bz_2_2_3 eq_refl Hfile
              eq_refl eq_refl eq_refl eq_refl)
    as (f & Hf & Hx & Hy & Hz & _).
  exists f. split; [exact Hf|]. split; [exact Hx|]. split; [exact Hy|exact Hz].
Defined.

Lemma fci_to_vtk_missing_file_witness :
  snd (fci_to_vtk true "fci.grid.nc" "fci.vts" 5 world0)
  = Raise (IOError "fci.grid.nc")
  /\ w_vtk (fst (fci_to_vtk true "fci.grid.nc" "fci.vts" 5 world0))
     = w_vtk world0.
Proof.
  destruct (fci_to_vtk_missing_file nat true "fci.grid.nc" "fci.vts" 5
              world0 eq_refl eq_refl) as (Hr & _ & Hv & _).
  split; [exact Hr|exact Hv].
Defined.

Lemma fci_to_vtk_missing_scalar_witness :
  snd (fci_to_vtk true "fci.grid.nc" "fci.vts" 5 world_no_bz)
  = Raise TypeError.
Proof.
  assert (Hfile : file_exists "fci.grid.nc" world_no_bz)
    by (exists grid_file_no_bz; apply lookup_singleton_eq).
  exact (proj1 (fci_to_vtk_missing_scalar nat true "fci.grid.nc" "fci.vts"
                  5 world_no_bz bx_2_2_3 eq_refl Hfile eq_refl I I I
                  (or_intror (or_intror eq_refl)))).
Defined.

Lemma fci_to_vtk_bad_rank_witness :
  snd (fci_to_vtk true "fci.grid.nc" "fci.vts" 5 world_flat_bx)
  = Raise ValueError.
Proof.
  assert (Hfile : file_exists "fci.grid.nc" world_flat_bx)
    by (eexists; apply lookup_singleton_eq).
  assert (Hrank : forall b, VArr2 [[1; 2]; [3; 4]] ≠ VArr3 b)
    by (intros b H; discriminate H).
  exact (proj1 (fci_to_vtk_bad_rank nat true "fci.grid.nc" "fci.vts" 5
                  world_flat_bx (VArr2 [[1; 2]; [3; 4]]) eq_refl Hfile
                  eq_refl Hrank)).
Defined.

Lemma write_maps_then_fci_to_vtk_witness :
  snd (fci_to_vtk true "fci.grid.nc" "fci.vts" 5
         (fst (write_maps rational_sqrt doubling_transform grid_4_3_4
                 field_shear maps_4_3_4 "fci.grid.nc" true world0)))
  = Ok tt.
Proof.
  assert (Hwf : wf_grid grid_4_3_4) by (split; reflexivity).
  assert (HR : ~ Rmaj grid_4_3_4 ^ 2 == 0)
    by (intros H; vm_compute in H; discriminate).
  exact (proj1 (write_maps_then_fci_to_vtk nat rational_sqrt
                  doubling_transform true grid_4_3_4 field_shear maps_4_3_4
                  "fci.grid.nc" true "fci.vts" 5 world0 Hwf HR
                  ltac:(simpl; lia) ltac:(simpl; lia) ltac:(simpl; lia)
                  eq_refl)).
Defined.
